(** * Verification of the bounding-box analysis module

    Shallow embedding of [client/src/utils/script.js]: the Overpass fetch
    with retries, the conversion of OSM elements to GeoJSON features, the
    length and density heuristics, and the composite score.

    Number model.  JavaScript numbers are modelled as exact rationals [Q]:
    every finite double is a rational, and the properties below are about
    the arithmetic the code writes down, not about rounding error.  [NaN]
    and the infinities are not represented; the places where the source
    could produce them (a division by zero, a non-numeric operand) are kept
    out of reach by the guards of the code or named in the statements. *)

From Stdlib Require Import QArith Qround Qabs Lqa ZArith Lia Ascii.
From stdpp Require Import gmap strings list fin_maps pretty.

Set Warnings "-register-all".
Local Open Scope Q_scope.

(** ** Numbers *)

Module Num.

(** [Math.max] and [Math.min] on two arguments. *)
Definition Math_max (x y : Q) : Q := if Qlt_le_dec x y then y else x.
Definition Math_min (x y : Q) : Q := if Qlt_le_dec y x then y else x.

(** [Math.round]: the nearest integer, halves towards plus infinity. *)
Definition Math_round (x : Q) : Z := Qfloor (x + (1 # 2)).

(** [Number(x.toFixed(d))]: [x] rounded to [d] decimals.  [toFixed]
    treats the sign separately and picks, for the absolute value, the
    nearest multiple of [10^-d], the larger one on a tie. *)
Definition pow10 (d : nat) : Z := Z.pow 10 (Z.of_nat d).

Definition toFixed (d : nat) (x : Q) : Q :=
  let n := Qfloor (Qabs x * inject_Z (pow10 d) + (1 # 2)) in
  if Qlt_le_dec x 0
  then - (inject_Z n / inject_Z (pow10 d))
  else inject_Z n / inject_Z (pow10 d).

(** The literal [1e-9] of [normClip]. *)
Definition eps : Q := 1 # 1000000000.

(** [normClip(x, a, b)], line 143. *)
Definition normClip (x a b : Q) : Q :=
  Math_max 0 (Math_min 1 ((x - a) / (b - a + eps))).

End Num.

Import Num.

(** ** JavaScript values, errors and effects *)

(** The values the module inspects dynamically: the [bbox] argument and
    the values stored in a feature's [properties]. *)
Inductive jsval : Type :=
| JUndefined
| JNull
| JBool (b : bool)
| JNum (q : Q)
| JStr (s : string)
| JArr (l : list jsval).

(** Truthiness, as used by [||], [!] and the conditional operator. *)
Definition truthy (v : jsval) : bool :=
  match v with
  | JUndefined | JNull => false
  | JBool b => b
  | JNum q => negb (Qeq_bool q 0)
  | JStr s => negb (String.eqb s "")
  | JArr _ => true
  end.

(** What the module can throw.  [JsError] is [new Error(msg)] raised by
    the module itself, [AxiosError] a rejection of [axios.post],
    [TypeError] a property access on [undefined] or a call of a missing
    method, [TurfError] an exception of the geometry library. *)
Inductive exn : Type :=
| JsError (msg : string)
| AxiosError (e : string)
| TypeError (msg : string)
| TurfError (msg : string).

(** Observable effects, in the order the model performs them. *)
Inductive event : Type :=
| Post (url body : string)
| Sleep (ms : Z)
| Warn (msg : string).

(** Pure fallible code: [inl] is a thrown exception. *)
Definition res (A : Type) : Type := (exn + A)%type.

Definition res_bind {A B} (m : res A) (k : A -> res B) : res B :=
  match m with inl e => inl e | inr a => k a end.

(** Effectful code: the log of events is threaded through. *)
Definition M (A : Type) : Type := list event -> res A * list event.

Definition ret {A} (a : A) : M A := fun log => (inr a, log).
Definition throw {A} (e : exn) : M A := fun log => (inl e, log).
Definition bind {A B} (m : M A) (k : A -> M B) : M B :=
  fun log => match m log with
             | (inl e, log') => (inl e, log')
             | (inr a, log') => k a log'
             end.
Definition emit (ev : event) : M unit := fun log => (inr tt, log ++ [ev]).
Definition lift {A} (r : res A) : M A := fun log => (r, log).

Declare Scope js_scope.
Delimit Scope js_scope with js.
Notation "'let*' x ':=' m 'in' k" := (bind m (fun x => k))
  (at level 10, x name, m at level 100, k at level 200) : js_scope.
Notation "'let?' x ':=' m 'in' k" := (res_bind m (fun x => k))
  (at level 10, x name, m at level 100, k at level 200) : js_scope.

(** ** OSM payloads and GeoJSON features *)

(** One entry of a way's [geometry] array. *)
Record latlon : Type := { g_lat : Q; g_lon : Q }.

(** A raw element of the Overpass answer.  [el_tags] and [el_geometry]
    are optional in the payload. *)
Record element : Type := {
  el_type : string;
  el_id : Z;
  el_tags : option (gmap string string);
  el_lat : Q;
  el_lon : Q;
  el_geometry : option (list latlon)
}.

Record osmJson : Type := { elements : option (list element) }.

(** A position is [[lon, lat]]. *)
Definition position : Type := (Q * Q)%type.

(** Geometries.  The entries of a polygon ring are optional because the
    converter closes a ring with [coords[0]], which is [undefined] when
    the way has no coordinates. *)
Inductive geom : Type :=
| Point (c : position)
| LineString (cs : list position)
| MultiLineString (ls : list (list position))
| Polygon (rings : list (list (option position)))
| MultiPolygon (polys : list (list (list (option position)))).

Record feature : Type := {
  geometry : option geom;
  properties : gmap string jsval
}.

Record featureCollection : Type := { features : option (list feature) }.

(** The line handed to turf's [length]: a feature of the collection, or
    [lineString(r)] built from a ring ([None] when the polygon has no
    first ring). *)
Inductive turf_line : Type :=
| FeatureLine (g : geom)
| RingLine (r : option (list (option position))).

(** ** Strings *)

(** [String.prototype.toLowerCase] on the ASCII letters.  The strings
    compared against below are ["hospital"] and ["school"]; no character
    outside ASCII lowercases to the letters of these two words, so the
    comparisons agree with the Unicode mapping. *)
Definition lower_ascii (c : ascii) : ascii :=
  let n := nat_of_ascii c in
  if ((65 <=? n)%nat && (n <=? 90)%nat)%bool then ascii_of_nat (n + 32) else c.

Fixpoint toLowerCase (s : string) : string :=
  match s with
  | EmptyString => EmptyString
  | String c s' => String (lower_ascii c) (toLowerCase s')
  end.

(** ** Conversion of OSM elements, lines 52-75 *)

Module Convert.

(** [{ id: el.id, ...(el.tags || {}) }]: the tags are copied over the
    object that already holds [id], so a tag of the same key wins. *)
Definition props_of (el : element) : gmap string jsval :=
  (JStr <$> default ∅ (el_tags el)) ∪ {[ "id" := JNum (inject_Z (el_id el)) ]}.

(** [obj.key], [undefined] when the key is absent. *)
Definition get (o : gmap string jsval) (k : string) : jsval :=
  default JUndefined (o !! k).

(** [el.geometry.map((g) => [g.lon, g.lat])]. *)
Definition coords_of (g : list latlon) : list position :=
  map (fun p => (g_lon p, g_lat p)) g.

(** [[...coords, coords[0]]]. *)
Definition close_ring (coords : list position) : list (option position) :=
  map Some coords ++ [head coords].

Definition includes (l : list string) (x : string) : bool :=
  existsb (String.eqb x) l.

(** The body of the loop: [None] when nothing is pushed. *)
Definition convert_element (geomTypes : list string) (el : element)
  : option feature :=
  if negb (includes geomTypes (el_type el)) then None
  else
    let props := props_of el in
    if String.eqb (el_type el) "node" then
      Some {| geometry := Some (Point (el_lon el, el_lat el));
              properties := props |}
    else
      match String.eqb (el_type el) "way", el_geometry el with
      | true, Some g =>
          let coords := coords_of g in
          let geom :=
            if truthy (get props "building")
            then Polygon [close_ring coords]
            else LineString coords in
          Some {| geometry := Some geom; properties := props |}
      | _, _ => None
      end.

Definition default_geomTypes : list string := ["way"; "node"; "relation"].

(** [osmToGeoJSON(osmJson, geomTypes)].  The argument is [None] when the
    caller passes [undefined], on which [osmJson.elements] throws. *)
Definition osmToGeoJSON (osm : option osmJson) (geomTypes : list string)
  : res featureCollection :=
  match osm with
  | None => inl (TypeError "Cannot read properties of undefined")
  | Some o =>
      inr {| features :=
               Some (omap (convert_element geomTypes)
                          (default [] (elements o))) |}
  end.

End Convert.

(** ** Densities, lines 109-141 *)

Module Density.

Definition count_of (n : nat) : Q := inject_Z (Z.of_nat n).

(** [pointDensityPerKm2(featureCollection, areaKm2)]. *)
Definition pointDensityPerKm2 (fc : option featureCollection) (areaKm2 : Q) : Q :=
  match fc with
  | None => 0
  | Some c =>
      if Qeq_bool areaKm2 0 then 0
      else count_of (length (default [] (features c))) / areaKm2
  end.

(** The key [`${rx},${ry}`] of a vertex. *)
Definition cell_key (p : position) : string :=
  let rx := Math_round (fst p * 10000) in
  let ry := Math_round (snd p * 10000) in
  pretty rx +:+ "," +:+ pretty ry.

(** The keys pushed to [pts] for one feature. *)
Definition feature_keys (f : feature) : list string :=
  match geometry f with
  | Some (LineString cs) => map cell_key cs
  | Some (MultiLineString ls) => concat (map (map cell_key) ls)
  | _ => []
  end.

(** The reducer [acc[k] = (acc[k] || 0) + 1]. *)
Definition bump (acc : gmap string nat) (k : string) : gmap string nat :=
  <[ k := (default 0 (acc !! k) + 1)%nat ]> acc.

Definition tally (pts : list string) : gmap string nat :=
  fold_left bump pts ∅.

(** [Object.values(counts).filter((v) => v >= 3).length]. *)
Definition intersections (counts : gmap string nat) : nat :=
  length (filter (fun v => (3 <= v)%nat) (map snd (map_to_list counts))).

(** [intersectionDensityPerKm2(roadsFeatureCollection, areaKm2)].  The
    loop reads [features] directly, which throws when it is missing. *)
Definition intersectionDensityPerKm2 (fc : option featureCollection) (areaKm2 : Q)
  : res Q :=
  match fc with
  | None => inr 0
  | Some c =>
      if Qeq_bool areaKm2 0 then inr 0
      else
        match features c with
        | None => inl (TypeError "features is not iterable")
        | Some fs =>
            let pts := concat (map feature_keys fs) in
            if (length pts =? 0)%nat then inr 0
            else inr (count_of (intersections (tally pts)) / areaKm2)
        end
  end.

End Density.

(** ** The analysis pipeline *)

Global Instance event_eq_dec : EqDecision event.
Proof. solve_decision. Defined.

(** The metrics record when every field is a number. *)
Record metrics : Type := {
  area_km2 : Q;
  roads_km : Q;
  roads_km_per_km2 : Q;
  buildings_count : nat;
  buildings_per_km2 : Q;
  intersections_per_km2 : Q;
  hospitals_per_km2 : Q;
  schools_per_km2 : Q;
  SocioEconScore : Q
}.

(** A number or [NaN] ([None]).  turf's [area] is [NaN] on a ring with an
    entry that is not a number, and the area enters most metrics. *)
Definition jsnum : Type := option Q.

(** The metrics record returned to the caller. *)
Record returned_metrics : Type := {
  ret_area_km2 : jsnum;
  ret_roads_km : jsnum;
  ret_roads_km_per_km2 : jsnum;
  ret_buildings_count : nat;
  ret_buildings_per_km2 : jsnum;
  ret_intersections_per_km2 : jsnum;
  ret_hospitals_per_km2 : jsnum;
  ret_schools_per_km2 : jsnum;
  ret_SocioEconScore : jsnum
}.

Definition all_numbers (m : metrics) : returned_metrics :=
  {| ret_area_km2 := Some (area_km2 m);
     ret_roads_km := Some (roads_km m);
     ret_roads_km_per_km2 := Some (roads_km_per_km2 m);
     ret_buildings_count := buildings_count m;
     ret_buildings_per_km2 := Some (buildings_per_km2 m);
     ret_intersections_per_km2 := Some (intersections_per_km2 m);
     ret_hospitals_per_km2 := Some (hospitals_per_km2 m);
     ret_schools_per_km2 := Some (schools_per_km2 m);
     ret_SocioEconScore := Some (SocioEconScore m) |}.

Record analysis_result : Type := {
  res_metrics : returned_metrics;
  res_analysis : string
}.

(** Arithmetic with [NaN]: an operation with a [NaN] operand is [NaN],
    as are [Math.max] and [Math.min] with a [NaN] argument and
    [Number(NaN.toFixed(d))]; [NaN === 0] is false.  No division below has
    a divisor 0: the source guards the area, and the other divisors are
    positive constants. *)
Module JsNum.

Definition lift1 (f : Q -> Q) (x : jsnum) : jsnum :=
  match x with Some a => Some (f a) | None => None end.

Definition lift2 (f : Q -> Q -> Q) (x y : jsnum) : jsnum :=
  match x, y with Some a, Some b => Some (f a b) | _, _ => None end.

(** [x === 0]. *)
Definition is_zero (x : jsnum) : bool :=
  match x with Some a => Qeq_bool a 0 | None => false end.

Definition div : jsnum -> jsnum -> jsnum := lift2 Qdiv.

Definition toFixed (d : nat) : jsnum -> jsnum := lift1 (Num.toFixed d).

(** [pointDensityPerKm2], lines 109-112. *)
Definition pointDensityPerKm2 (fc : option featureCollection) (areaKm2 : jsnum)
  : jsnum :=
  match fc with
  | None => Some 0
  | Some c =>
      if is_zero areaKm2 then Some 0
      else div (Some (Density.count_of (length (default [] (features c)))))
               areaKm2
  end.

(** [intersectionDensityPerKm2], lines 114-141. *)
Definition intersectionDensityPerKm2 (fc : option featureCollection)
    (areaKm2 : jsnum) : res jsnum :=
  match fc with
  | None => inr (Some 0)
  | Some c =>
      if is_zero areaKm2 then inr (Some 0)
      else
        match features c with
        | None => inl (TypeError "features is not iterable")
        | Some fs =>
            let pts := concat (map Density.feature_keys fs) in
            if (length pts =? 0)%nat then inr (Some 0)
            else inr (div (Some (Density.count_of
                                   (Density.intersections (Density.tally pts))))
                          areaKm2)
        end
  end.

End JsNum.

(** The events of concurrent promises.  Each call of an async function
    runs synchronously up to its first [await], so the first event of each
    promise comes first, in call order; after that [schedule] names, step
    by step, the promise whose next event comes, and what is left when the
    schedule ends follows in call order. *)
Fixpoint weave (schedule : list nat) (ts : list (list event)) : list event :=
  match schedule with
  | [] => concat ts
  | i :: rest =>
      match ts !! i with
      | Some (ev :: t) => ev :: weave rest (<[i := t]> ts)
      | _ => weave rest ts
      end
  end.

Definition interleave (schedule : list nat) (ts : list (list event)) : list event :=
  concat (map (take 1) ts) ++ weave schedule (map (drop 1) ts).

(** Run a promise on its own: its outcome and the events it performs; the
    log is left as it is. *)
Definition detached {A} (m : M A) : M (res A * list event) :=
  fun log => let '(r, log') := m log in (inr (r, drop (length log) log'), log).

Definition emit_all (evs : list event) : M unit :=
  fun log => (inr tt, log ++ evs).

(** The [options] argument after destructuring with its defaults. *)
Record options : Type := {
  apiKey : string;
  useGemini : bool;
  overpassRetries : Z;
  model : string
}.

Definition default_options : options :=
  {| apiKey := ""; useGemini := true; overpassRetries := 1;
     model := "gemini-2.0-flash" |}.

(** [Promise.all] on three promises.  The promises are given settled;
    [order] lists their indices in the order in which they settled.  The
    result rejects with the first rejection in that order and otherwise
    resolves with the three values in positional order. *)
Fixpoint first_rejection {A} (order : list nat) (rs : list (res A)) : option exn :=
  match order with
  | [] => None
  | i :: order' =>
      match rs !! i with
      | Some (inl e) => Some e
      | _ => first_rejection order' rs
      end
  end.

Definition Promise_all {A} (order : list nat) (r1 r2 r3 : res A) : res (A * A * A) :=
  match first_rejection order [r1; r2; r3] with
  | Some e => inl e
  | None =>
      let? a := r1 in let? b := r2 in let? c := r3 in inr (a, b, c)
  end%js.

Section Pipeline.

(** The collaborators outside the module. *)

(** [axios.post(url, body, ...)]: the answer to the [n]-th post of
    [body] (counting from 0), a rejection or the [data] of the response. *)
Variable axios_post : string -> string -> nat -> res osmJson.
(** turf's [area(polygon(rings))], in square metres, when it is a number. *)
Variable turf_area : list (list (jsval * jsval)) -> Q.
(** turf's [length(line, { units: "kilometers" })]. *)
Variable turf_length : turf_line -> res Q.

Local Open Scope js_scope.

(** [bboxPolygon(b)], lines 20-31: the ring handed to turf's [polygon]. *)
Definition bboxPolygon (b : list jsval) : list (list (jsval * jsval)) :=
  let minLon := nth 0 b JUndefined in
  let minLat := nth 1 b JUndefined in
  let maxLon := nth 2 b JUndefined in
  let maxLat := nth 3 b JUndefined in
  [[ (minLon, minLat); (maxLon, minLat); (maxLon, maxLat);
     (minLon, maxLat); (minLon, minLat) ]].

Definition overpass_url : string := "https://overpass-api.de/api/interpreter".

(** How often [body] was posted so far. *)
Definition posts_of (body : string) (log : list event) : nat :=
  length (filter (fun ev => ev = Post overpass_url body) log).

(** One [await axios.post(url, query, ...)] inside [try]. *)
Definition post (query : string) : M (res osmJson) :=
  fun log =>
    (inr (axios_post overpass_url query (posts_of query log)),
     log ++ [Post overpass_url query]).

(** The loop of [overpass], lines 35-49, from [attempt] on.  [fuel]
    bounds the iterations left; the loop condition is the source's. *)
Fixpoint overpass_loop (query : string) (retries pauseMs : Z)
    (fuel : nat) (attempt : Z) : M (option osmJson) :=
  match fuel with
  | O => ret None
  | S fuel' =>
      if (attempt <=? retries)%Z then
        let* r := post query in
        match r with
        | inr data => ret (Some data)
        | inl err =>
            if (attempt <? retries)%Z then
              let* _ := emit (Sleep pauseMs) in
              overpass_loop query retries pauseMs fuel' (attempt + 1)%Z
            else throw err
        end
      else ret None
  end.

(** [overpass(query, retries, pauseMs)].  The result is [None] when the
    loop ends without a return, that is for a negative [retries]. *)
Definition overpass (query : string) (retries pauseMs : Z) : M (option osmJson) :=
  overpass_loop query retries pauseMs (Z.to_nat (retries + 1)) 0%Z.

Definition default_pauseMs : Z := 1500.

(** [lengthKm(featureCollection)], lines 77-107. *)
Fixpoint ring_lengths (polygons : list (list (list (option position))))
    (total : Q) : res Q :=
  match polygons with
  | [] => inr total
  | ring :: rest =>
      let? l := turf_length (RingLine (head ring)) in
      ring_lengths rest (total + l)%Q
  end.

Definition add_feature_length (total : Q) (f : feature) : res Q :=
  match geometry f with
  | None => inr total
  | Some (LineString cs) =>
      let? l := turf_length (FeatureLine (LineString cs)) in inr (total + l)%Q
  | Some (MultiLineString ls) =>
      let? l := turf_length (FeatureLine (MultiLineString ls)) in inr (total + l)%Q
  | Some (Polygon rings) => ring_lengths [rings] total
  | Some (MultiPolygon polys) => ring_lengths polys total
  | Some (Point _) => inr total
  end.

Fixpoint length_loop (fs : list feature) (total : Q) : res Q :=
  match fs with
  | [] => inr total
  | f :: rest =>
      let? t := add_feature_length total f in length_loop rest t
  end.

Definition lengthKm (fc : option featureCollection) : res Q :=
  match fc with
  | None => inr 0%Q
  | Some c =>
      match features c with
      | None | Some [] => inr 0%Q
      | Some fs => length_loop fs 0%Q
      end
  end.

(** [(f.properties.amenity || "").toLowerCase() === name]. *)
Definition amenity_is (name : string) (f : feature) : res bool :=
  let a := Convert.get (properties f) "amenity" in
  if truthy a then
    match a with
    | JStr s => inr (String.eqb (toLowerCase s) name)
    | _ => inl (TypeError "toLowerCase is not a function")
    end
  else inr (String.eqb (toLowerCase "") name).

(** [Array.prototype.filter] with a callback that may throw. *)
Fixpoint filter_res (p : feature -> res bool) (fs : list feature)
  : res (list feature) :=
  match fs with
  | [] => inr []
  | f :: rest =>
      let? keep := p f in
      let? tl := filter_res p rest in
      inr (if keep then f :: tl else tl)
  end.

Definition bbox_error : exn :=
  JsError "bbox must be an array [minLon, minLat, maxLon, maxLat]".

(** The score of lines 299-307. *)
Definition socio_score (road_km_per_km2 intxn_per_km2 hosp_per_km2
    school_per_km2 : Q) : Q :=
  let infra :=
    (0.5 * normClip road_km_per_km2 0 10
     + 0.5 * normClip intxn_per_km2 0 200)%Q in
  let access :=
    (0.5 * normClip hosp_per_km2 0 5 + 0.5 * normClip school_per_km2 0 8)%Q in
  let activity := 0%Q in
  let green := 0%Q in
  (100 * (0.35 * infra + 0.35 * access + 0.2 * activity + 0.1 * green))%Q.

(** Lines 270-319, everything after the three payloads have arrived,
    when the area of the box is a number: every metric is then a number.
    [compute_returned] below is the same lines with an area that may be
    [NaN]; on an area that is a number it returns these metrics. *)
Definition compute_metrics (b : list jsval)
    (roadsOs buildOs amenOs : option osmJson) : res metrics :=
  let? roadsGeo := Convert.osmToGeoJSON roadsOs ["way"] in
  let? buildGeo := Convert.osmToGeoJSON buildOs ["way"] in
  let? amenGeo := Convert.osmToGeoJSON amenOs ["node"] in
  let aoi := bboxPolygon b in
  let areaKm2 := (turf_area aoi / 1000000)%Q in
  let? road_km := lengthKm (Some roadsGeo) in
  let road_km_per_km2 :=
    if Qeq_bool areaKm2 0 then 0%Q else (road_km / areaKm2)%Q in
  let bldg_count := length (default [] (features buildGeo)) in
  let bldg_per_km2 :=
    if Qeq_bool areaKm2 0 then 0%Q
    else (Density.count_of bldg_count / areaKm2)%Q in
  let? intxn_per_km2 := Density.intersectionDensityPerKm2 (Some roadsGeo) areaKm2 in
  let? hosp := filter_res (amenity_is "hospital") (default [] (features amenGeo)) in
  let hospitals := {| features := Some hosp |} in
  let? scho := filter_res (amenity_is "school") (default [] (features amenGeo)) in
  let schools := {| features := Some scho |} in
  let hosp_per_km2 := Density.pointDensityPerKm2 (Some hospitals) areaKm2 in
  let school_per_km2 := Density.pointDensityPerKm2 (Some schools) areaKm2 in
  let score :=
    socio_score road_km_per_km2 intxn_per_km2 hosp_per_km2 school_per_km2 in
  inr {| area_km2 := toFixed 3 areaKm2;
         roads_km := toFixed 3 road_km;
         roads_km_per_km2 := toFixed 3 road_km_per_km2;
         buildings_count := bldg_count;
         buildings_per_km2 := toFixed 3 bldg_per_km2;
         intersections_per_km2 := toFixed 3 intxn_per_km2;
         hospitals_per_km2 := toFixed 4 hosp_per_km2;
         schools_per_km2 := toFixed 4 school_per_km2;
         SocioEconScore := toFixed 1 score |}.

End Pipeline.

Section Orchestration.

Variable axios_post : string -> string -> nat -> res osmJson.
(** The order in which the three concurrent fetches settle. *)
Variable settle_order : list nat.
(** How the events of the three concurrent fetches follow each other. *)
Variable schedule : list nat.
(** turf's [area(polygon(rings))], in square metres, or [NaN]. *)
Variable turf_area : list (list (jsval * jsval)) -> jsnum.
Variable turf_length : turf_line -> res Q.
(** The string a template literal substitutes for a value. *)
Variable toStr : jsval -> string.
(** The fixed text [areaReport] of [generateGeminiAnalysis]. *)
Variable areaReport : string.

Local Open Scope js_scope.

(** [generateGeminiAnalysis(ai, metrics, model)], lines 148-229: the
    function returns [areaReport] at once; the rest is unreachable. *)
Definition generateGeminiAnalysis (ai : option string) (m : returned_metrics)
    (model : string) : M string :=
  ret areaReport.

(** The score of lines 299-307 on numbers that may be [NaN]: each of the
    four densities enters the sum with a weight that is not 0. *)
Definition socio_score_js (road_km_per_km2 intxn_per_km2 hosp_per_km2
    school_per_km2 : jsnum) : jsnum :=
  match road_km_per_km2, intxn_per_km2, hosp_per_km2, school_per_km2 with
  | Some r, Some i, Some h, Some s => Some (socio_score r i h s)
  | _, _, _, _ => None
  end.

(** Lines 270-319 as the source runs them, the area a number or [NaN]. *)
Definition compute_returned (b : list jsval)
    (roadsOs buildOs amenOs : option osmJson) : res returned_metrics :=
  let? roadsGeo := Convert.osmToGeoJSON roadsOs ["way"] in
  let? buildGeo := Convert.osmToGeoJSON buildOs ["way"] in
  let? amenGeo := Convert.osmToGeoJSON amenOs ["node"] in
  let aoi := bboxPolygon b in
  let areaKm2 := JsNum.div (turf_area aoi) (Some 1000000%Q) in
  let? road_km := lengthKm turf_length (Some roadsGeo) in
  let road_km_per_km2 :=
    if JsNum.is_zero areaKm2 then Some 0%Q
    else JsNum.div (Some road_km) areaKm2 in
  let bldg_count := length (default [] (features buildGeo)) in
  let bldg_per_km2 :=
    if JsNum.is_zero areaKm2 then Some 0%Q
    else JsNum.div (Some (Density.count_of bldg_count)) areaKm2 in
  let? intxn_per_km2 := JsNum.intersectionDensityPerKm2 (Some roadsGeo) areaKm2 in
  let? hosp := filter_res (amenity_is "hospital") (default [] (features amenGeo)) in
  let hospitals := {| features := Some hosp |} in
  let? scho := filter_res (amenity_is "school") (default [] (features amenGeo)) in
  let schools := {| features := Some scho |} in
  let hosp_per_km2 := JsNum.pointDensityPerKm2 (Some hospitals) areaKm2 in
  let school_per_km2 := JsNum.pointDensityPerKm2 (Some schools) areaKm2 in
  let score :=
    socio_score_js road_km_per_km2 intxn_per_km2 hosp_per_km2 school_per_km2 in
  inr {| ret_area_km2 := JsNum.toFixed 3 areaKm2;
         ret_roads_km := JsNum.toFixed 3 (Some road_km);
         ret_roads_km_per_km2 := JsNum.toFixed 3 road_km_per_km2;
         ret_buildings_count := bldg_count;
         ret_buildings_per_km2 := JsNum.toFixed 3 bldg_per_km2;
         ret_intersections_per_km2 := JsNum.toFixed 3 intxn_per_km2;
         ret_hospitals_per_km2 := JsNum.toFixed 4 hosp_per_km2;
         ret_schools_per_km2 := JsNum.toFixed 4 school_per_km2;
         ret_SocioEconScore := JsNum.toFixed 1 score |}.

(** The three queries of lines 256-261. *)
Definition Q_BASE (b : list jsval) : string :=
  let minlon := nth 0 b JUndefined in
  let minlat := nth 1 b JUndefined in
  let maxlon := nth 2 b JUndefined in
  let maxlat := nth 3 b JUndefined in
  "(" +:+ toStr minlat +:+ "," +:+ toStr minlon +:+ ","
      +:+ toStr maxlat +:+ "," +:+ toStr maxlon +:+ ")".

Definition Q_ROADS (b : list jsval) : string :=
  "[out:json][timeout:60];way" +:+ Q_BASE b +:+ "[highway];out geom;".
Definition Q_BUILD (b : list jsval) : string :=
  "[out:json][timeout:60];way" +:+ Q_BASE b +:+ "[building];out geom;".
Definition Q_AMEN (b : list jsval) : string :=
  "[out:json][timeout:60];(node" +:+ Q_BASE b +:+ "[amenity=hospital];node"
    +:+ Q_BASE b +:+ "[amenity=clinic];node"
    +:+ Q_BASE b +:+ "[amenity=school];node"
    +:+ Q_BASE b +:+ "[amenity=university];node"
    +:+ Q_BASE b +:+ "[public_transport=station];node"
    +:+ Q_BASE b +:+ "[highway=bus_stop];);out body;".

(** [await Promise.all([overpass(..), overpass(..), overpass(..)])].
    The three fetches run concurrently.  The answer to a post depends only
    on its body and on how often that body was posted before, and the three
    bodies differ, so each fetch is run on its own from the log at the
    start; the events of the three are then merged into the log. *)
Definition settled_fetches (b : list jsval) (retries : Z)
  : M (res (option osmJson) * res (option osmJson) * res (option osmJson)) :=
  let* x1 := detached (overpass axios_post (Q_ROADS b) retries default_pauseMs) in
  let* x2 := detached (overpass axios_post (Q_BUILD b) retries default_pauseMs) in
  let* x3 := detached (overpass axios_post (Q_AMEN b) retries default_pauseMs) in
  let* _ := emit_all (interleave schedule [snd x1; snd x2; snd x3]) in
  ret (fst x1, fst x2, fst x3).

Definition fetch_all (b : list jsval) (retries : Z)
  : M (option osmJson * option osmJson * option osmJson) :=
  let* rs := settled_fetches b retries in
  let '(r1, r2, r3) := rs in
  lift (Promise_all settle_order r1 r2 r3).

(** Lines 244-254: the AI client, [None] for [null]. *)
Definition prepare_ai (opts : options) : M (option string) :=
  if useGemini opts then
    if negb (truthy (JStr (apiKey opts))) then
      let* _ := emit (Warn "useGemini is true but no apiKey provided. Proceeding without Gemini.") in
      ret None
    else ret (Some (apiKey opts))
  else ret None.

(** [analyzeBBox(bbox, options)], lines 232-327. *)
Definition analyzeBBox (bbox : jsval) (opts : options) : M analysis_result :=
  match bbox with
  | JArr b =>
      if negb (length b =? 4)%nat then throw bbox_error
      else
        let* ai := prepare_ai opts in
        let* os := fetch_all b (overpassRetries opts) in
        let '(roadsOs, buildOs, amenOs) := os in
        let* m := lift (compute_returned b roadsOs buildOs amenOs) in
        let* gemini_analysis := generateGeminiAnalysis ai m (model opts) in
        ret {| res_metrics := m; res_analysis := gemini_analysis |}
  | _ => throw bbox_error
  end.

End Orchestration.

(** ** The caller: from clicked points to a bounding box

    The page component [Landing] keeps the clicked points, and its
    [findLongestDistance] turns them into the bounding box it hands to
    [analyzeBBox]. *)

Module Landing.

(** A clicked point, [[lat, lng]]. *)
Definition point : Type := (Q * Q)%type.

(** The variables [maxDistance], [point1], [point2] of the search;
    [None] is [null]. *)
Record search : Type := {
  maxDistance : Q;
  point1 : option point;
  point2 : option point
}.

Definition start : search :=
  {| maxDistance := 0; point1 := None; point2 := None |}.

(** The squared Euclidean distance under the square root. *)
Definition dist2 (p q : point) : Q :=
  (fst q - fst p) * (fst q - fst p) + (snd q - snd p) * (snd q - snd p).

Section Search.

(** [Math.sqrt].  The square root of a rational is in general not
    rational; the search only compares distances with each other and with
    0, so the model takes the function as a parameter and the statements
    assume of it what they use: it is strictly increasing on the
    non-negative numbers and maps 0 to 0. *)
Variable Math_sqrt : Q -> Q.

(** The body of the inner loop for the pair [(p, q)]. *)
Definition visit (p : point) (st : search) (q : point) : search :=
  let distance := Math_sqrt (dist2 p q) in
  if Qlt_le_dec (maxDistance st) distance
  then {| maxDistance := distance; point1 := Some p; point2 := Some q |}
  else st.

(** The loops over [i] and over [j > i]. *)
Fixpoint scan (coordinates : list point) (st : search) : search :=
  match coordinates with
  | [] => st
  | p :: rest => scan rest (fold_left (visit p) rest st)
  end.

(** [findLongestDistance(coordinates)]: the bounding box
    [[lon1, lat1, lon2, lat2]] handed to [analyzeBBox]. *)
Definition findLongestDistance (coordinates : list point) : res jsval :=
  if (length coordinates <? 2)%nat
  then inl (JsError "At least 2 coordinates are required")
  else
    let st := scan coordinates start in
    match point1 st, point2 st with
    | Some (lat1, lon1), Some (lat2, lon2) =>
        inr (JArr [JNum lon1; JNum lat1; JNum lon2; JNum lat2])
    | _, _ => inl (TypeError "null is not iterable")
    end.

End Search.

(** The pairs [(coordinates[i], coordinates[j])] with [i < j], in the
    order the loops visit them. *)
Fixpoint pairs (l : list point) : list (point * point) :=
  match l with
  | [] => []
  | p :: rest => map (pair p) rest ++ pairs rest
  end.

(** The list of clicked points kept by the page: [MAX_POINTS], the
    click handler and the four state updates. *)
Definition MAX_POINTS : nat := 4.

(** The state update of [addPoint]. *)
Definition addPoint (latlng : point) (p : list point) : list point :=
  if (MAX_POINTS <=? length p)%nat then p else p ++ [latlng].

(** A click on the map: the handler returns early on a full list. *)
Definition click (latlng : point) (points : list point) : list point :=
  if (MAX_POINTS <=? length points)%nat then points else addPoint latlng points.

(** The state update of [onMarkerDragEnd] for the marker [index].  A
    marker exists only for an index inside the list; outside of it the
    assignment of the source would extend the array, which the model does
    not represent, and the transitions below never ask for it. *)
Definition onMarkerDragEnd (index : nat) (latlng : point) (prev : list point)
  : list point :=
  <[index := latlng]> prev.

(** [p.slice(0, -1)]. *)
Definition removeLast (p : list point) : list point := take (length p - 1) p.

Definition clearAll (p : list point) : list point := [].

(** What the user can do to the list of points. *)
Inductive edit : list point -> list point -> Prop :=
| edit_click latlng l : edit l (click latlng l)
| edit_drag index latlng l :
    (index < length l)%nat -> edit l (onMarkerDragEnd index latlng l)
| edit_remove l : edit l (removeLast l)
| edit_clear l : edit l (clearAll l).

(** What the search knows after the pairs [seen]. *)
Definition search_inv (Math_sqrt : Q -> Q) (seen : list (point * point))
    (st : search) : Prop :=
  (forall pq, pq ∈ seen ->
     Math_sqrt (dist2 (fst pq) (snd pq)) <= maxDistance st) /\
  ((point1 st = None /\ point2 st = None /\
    maxDistance st == 0) \/
   (exists p q, point1 st = Some p /\ point2 st = Some q /\
      (p, q) ∈ seen /\
      maxDistance st = Math_sqrt (dist2 p q) /\
      0 < maxDistance st)).

End Landing.

(** ** Reference definitions for the statements *)

Module Ref.

(** The grid cell of a vertex: both coordinates times 10,000, rounded. *)
Definition quantize (p : position) : Z * Z :=
  (Math_round (fst p * 10000), Math_round (snd p * 10000)).

(** The vertices of the lines of a road collection, in order. *)
Definition feature_vertices (f : feature) : list position :=
  match geometry f with
  | Some (LineString cs) => cs
  | Some (MultiLineString ls) => concat ls
  | _ => []
  end.

Definition road_vertices (fs : list feature) : list position :=
  concat (map feature_vertices fs).

(** How many entries of [l] equal [x]. *)
Definition occ `{EqDecision A} (x : A) (l : list A) : nat :=
  length (filter (fun y => y = x) l).

(** The cells reached by at least three vertices, each listed once. *)
Definition busy_cells (vs : list position) : list (Z * Z) :=
  let cells := map quantize vs in
  filter (fun c => (3 <= occ c cells)%nat) (remove_dups cells).

(** The [amenity] tag of a raw element, if any. *)
Definition amenity_tag (el : element) : option string :=
  default ∅ (el_tags el) !! "amenity".

(** A node whose [amenity] tag is [name] up to letter case. *)
Definition is_amenity_node (name : string) (el : element) : bool :=
  String.eqb (el_type el) "node" &&
  match amenity_tag el with
  | Some s => String.eqb (toLowerCase s) name
  | None => false
  end.

(** The events of a fetch whose first [k] posts fail and are retried:
    [k] times a post and a pause, then one more post. *)
Definition retry_log (query : string) (pauseMs : Z) (k : nat) : list event :=
  concat (replicate k [Post overpass_url query; Sleep pauseMs])
  ++ [Post overpass_url query].

(** The key of a cell, as the source prints it. *)
Definition key (c : Z * Z) : string := pretty (fst c) +:+ "," +:+ pretty (snd c).

(** No character of [s] is a comma. *)
Fixpoint comma_free (s : string) : bool :=
match s with
| EmptyString => true
| String c s' => negb (Ascii.eqb c ",") && comma_free s'
end.

(** [Some n] for a positive count, [None] for 0. *)
Definition positive_count (n : nat) : option nat :=
match n with O => None | S _ => Some n end.

(** How many elements are nodes with the amenity [name]. *)
Definition count_amenity (name : string) (els : list element) : nat :=
length (List.filter (is_amenity_node name) els).

(** The amenity density the caller sees, from the raw count. *)
Definition amenity_density (name : string) (els : list element) (areaKm2 : Q) : Q :=
toFixed 4 (if Qeq_bool areaKm2 0 then 0
           else Density.count_of (count_amenity name els) / areaKm2).

(** An element the converter turns into a feature under the type filter
    [gt]: a node, or a way that carries a geometry array. *)
Definition convertible (gt : list string) (el : element) : bool :=
Convert.includes gt (el_type el) &&
(String.eqb (el_type el) "node" ||
 (String.eqb (el_type el) "way" && bool_decide (is_Some (el_geometry el)))).

(** A feature without the inner rings of its polygons. *)
Definition outer_rings (f : feature) : feature :=
{| geometry :=
     match geometry f with
     | Some (Polygon rings) => Some (Polygon (take 1 rings))
     | Some (MultiPolygon polys) => Some (MultiPolygon (map (take 1) polys))
     | g => g
     end;
   properties := properties f |}.

(** The posts among the events of a log. *)
Definition is_post (ev : event) : bool :=
match ev with Post _ _ => true | _ => false end.

Definition count_posts (log : list event) : nat :=
length (filter (fun ev => is_post ev = true) log).

(** [bbox] is an array of four entries. *)
Definition is_quad (bbox : jsval) : Prop :=
  exists b, bbox = JArr b /\ length b = 4%nat.

End Ref.

(** A computation only appends to the log. *)
Definition extends {A} (m : M A) : Prop :=
  forall log r log', m log = (r, log') -> exists l, log' = log ++ l.

(** ** A concrete environment *)

Module Sample.

Definition show (v : jsval) : string :=
  match v with
  | JNum q => pretty (Qnum q) +:+ "/" +:+ pretty (Z.pos (Qden q))
  | JStr s => s
  | _ => "undefined"
  end.

Definition quad : list jsval := [JNum 77.1; JNum 28.55; JNum 77.3; JNum 28.75].
Definition bbox : jsval := JArr quad.

Definition node (id : Z) (tags : list (string * string)) (lon lat : Q) : element :=
  {| el_type := "node"; el_id := id; el_tags := Some (list_to_map tags);
     el_lat := lat; el_lon := lon; el_geometry := None |}.

Definition way (id : Z) (tags : list (string * string)) (g : list (Q * Q)) : element :=
  {| el_type := "way"; el_id := id; el_tags := Some (list_to_map tags);
     el_lat := 0; el_lon := 0;
     el_geometry := Some (map (fun p => {| g_lon := fst p; g_lat := snd p |}) g) |}.

(** Three streets meeting in one vertex. *)
Definition roads : osmJson :=
  {| elements := Some
       [ way 1 [("highway", "residential")] [(77.2, 28.6); (77.21, 28.6)];
         way 2 [("highway", "residential")] [(77.2, 28.6); (77.2, 28.61)];
         way 3 [("highway", "service")] [(77.19, 28.59); (77.2, 28.6)] ] |}.

Definition house : element :=
  way 10 [("building", "yes")] [(77.2, 28.6); (77.201, 28.6); (77.201, 28.601)].

Definition house_geometry : list latlon := default [] (el_geometry house).

Definition buildings : osmJson := {| elements := Some [house] |}.

Definition hospital_node : element := node 20 [("amenity", "hospital")] 77.2 28.6.
Definition school_node : element := node 21 [("amenity", "School")] 77.21 28.6.
Definition clinic_node : element := node 22 [("amenity", "clinic")] 77.22 28.6.
Definition bus_stop_node : element := node 23 [("highway", "bus_stop")] 77.23 28.6.

Definition amenities : osmJson :=
  {| elements := Some
       ([hospital_node; school_node] ++ clinic_node :: [bus_stop_node]) |}.

Definition amenities_without_clinic : osmJson :=
  {| elements := Some ([hospital_node; school_node] ++ [bus_stop_node]) |}.

Definition payload_for (body : string) : osmJson :=
  if String.eqb body (Q_ROADS show quad) then roads
  else if String.eqb body (Q_BUILD show quad) then buildings
  else amenities.

(** A server that always answers. *)
Definition server (url body : string) (n : nat) : res osmJson :=
  inr (payload_for body).

(** A server whose first [k] answers to every query are failures. *)
Definition flaky (k : nat) (url body : string) (n : nat) : res osmJson :=
  if (n <? k)%nat then inl (AxiosError ("timeout " +:+ pretty n))
  else inr (payload_for body).

(** A server on which only the building query fails. *)
Definition no_buildings (url body : string) (n : nat) : res osmJson :=
  if String.eqb body (Q_BUILD show quad)
  then inl (AxiosError ("timeout " +:+ pretty n))
  else inr (payload_for body).

(** A four-element array whose first entry is not a number. *)
Definition bad_quad : list jsval := [JStr "north"; JNum 28.55; JNum 77.3; JNum 28.75].
Definition bad_bbox : jsval := JArr bad_quad.

(** Two clicks on the same spot, and three clicks apart. *)
Definition same_spot : list Landing.point := [(1, 1); (1, 1)].
Definition three_clicks : list Landing.point := [(0, 0); (3, 4); (1, 1)].

Definition order : list nat := [2; 0; 1]%nat.
Definition sched : list nat := [1; 0; 2; 1]%nat.
Definition area (rings : list (list (jsval * jsval))) : Q := 4000000.

Definition is_number (v : jsval) : bool :=
  match v with JNum _ => true | _ => false end.

(** An area that is [NaN] as soon as an entry of the ring is not a
    number. *)
Definition area_js (rings : list (list (jsval * jsval))) : jsnum :=
  if forallb (forallb (fun p => is_number (fst p) && is_number (snd p))) rings
  then Some (area rings) else None.
Definition len (l : turf_line) : res Q := inr 2.
Definition report : string := "report".

Definition run (bbox : jsval) : res analysis_result * list event :=
  analyzeBBox server order sched area_js len show report bbox default_options [].

End Sample.

(** ** Facts about the numeric helpers *)

Lemma Math_max_case (x y : Q) :
  (x < y /\ Math_max x y = y) \/ (y <= x /\ Math_max x y = x).
Proof.
  unfold Math_max. destruct (Qlt_le_dec x y); [left | right]; split; auto.
Qed.

Lemma Math_min_case (x y : Q) :
  (y < x /\ Math_min x y = y) \/ (x <= y /\ Math_min x y = x).
Proof.
  unfold Math_min. destruct (Qlt_le_dec y x); [left | right]; split; auto.
Qed.

Ltac minmax_step x y lem :=
  let H := fresh "Hm" in
  destruct (lem x y) as [[? H] | [? H]]; rewrite H in *; clear H.

Ltac minmax :=
  repeat match goal with
  | |- context [Math_max ?x ?y] => minmax_step x y Math_max_case
  | |- context [Math_min ?x ?y] => minmax_step x y Math_min_case
  | _ : context [Math_max ?x ?y] |- _ => minmax_step x y Math_max_case
  | _ : context [Math_min ?x ?y] |- _ => minmax_step x y Math_min_case
  end.

Lemma eps_pos : 0 < eps.
Proof. reflexivity. Qed.

Lemma normClip_range (x a b : Q) : 0 <= normClip x a b <= 1.
Proof. unfold normClip. minmax; lra. Qed.

Lemma normClip_mono (x y a b : Q) :
  0 < b - a + eps -> x <= y -> normClip x a b <= normClip y a b.
Proof.
  intros Hd Hxy. unfold normClip.
  assert (Hq : (x - a) / (b - a + eps) <= (y - a) / (b - a + eps)).
  { unfold Qdiv. apply Qmult_le_compat_r; [lra |].
    apply Qlt_le_weak, Qinv_lt_0_compat, Hd. }
  minmax; lra.
Qed.

(** ** Rounding to a fixed number of decimals *)

Lemma pow10_pos (d : nat) : 0 < inject_Z (pow10 d).
Proof.
  unfold pow10. change 0 with (inject_Z 0). rewrite <- Zlt_Qlt.
  apply Z.pow_pos_nonneg; lia.
Qed.

Lemma round_half_nonneg (x : Q) (d : nat) :
  (0 <= Qfloor (Qabs x * inject_Z (pow10 d) + (1 # 2)))%Z.
Proof.
  change 0%Z with (Qfloor 0). apply Qfloor_resp_le.
  pose proof (Qabs_nonneg x). pose proof (pow10_pos d).
  assert (0 <= Qabs x * inject_Z (pow10 d)) by (apply Qmult_le_0_compat; lra).
  lra.
Qed.

Lemma Qdiv_le_compat (p x y : Q) : 0 < p -> x <= y -> x / p <= y / p.
Proof.
  intros Hp Hxy. unfold Qdiv. apply Qmult_le_compat_r; [exact Hxy |].
  apply Qlt_le_weak, Qinv_lt_0_compat, Hp.
Qed.

Lemma toFixed_mono (d : nat) (x y : Q) : x <= y -> toFixed d x <= toFixed d y.
Proof.
  intros Hxy. unfold toFixed.
  pose proof (pow10_pos d) as Hp.
  pose proof (round_half_nonneg x d) as Hx.
  pose proof (round_half_nonneg y d) as Hy.
  set (nx := Qfloor (Qabs x * inject_Z (pow10 d) + (1 # 2))) in *.
  set (ny := Qfloor (Qabs y * inject_Z (pow10 d) + (1 # 2))) in *.
  assert (H0 : forall n, (0 <= n)%Z -> 0 <= inject_Z n / inject_Z (pow10 d)).
  { intros n Hn. apply Qle_shift_div_l; [exact Hp |].
    rewrite Qmult_0_l. change 0 with (inject_Z 0). now rewrite <- Zle_Qle. }
  destruct (Qlt_le_dec x 0) as [Hx0 | Hx0];
    destruct (Qlt_le_dec y 0) as [Hy0 | Hy0].
  - apply Qopp_le_compat. apply Qdiv_le_compat; [exact Hp |].
    rewrite <- Zle_Qle. apply Qfloor_resp_le.
    rewrite !Qabs_neg by lra.
    assert ((- y) * inject_Z (pow10 d) <= (- x) * inject_Z (pow10 d))
      by (apply Qmult_le_compat_r; lra).
    lra.
  - pose proof (H0 nx Hx). pose proof (H0 ny Hy). lra.
  - lra.
  - apply Qdiv_le_compat; [exact Hp |].
    rewrite <- Zle_Qle. apply Qfloor_resp_le.
    rewrite !Qabs_pos by lra.
    assert (x * inject_Z (pow10 d) <= y * inject_Z (pow10 d))
      by (apply Qmult_le_compat_r; lra).
    lra.
Qed.

Lemma toFixed_grid (d : nat) (n : Z) :
  (0 <= n)%Z ->
  toFixed d (inject_Z n / inject_Z (pow10 d)) == inject_Z n / inject_Z (pow10 d).
Proof.
  intros Hn. unfold toFixed.
  pose proof (pow10_pos d) as Hp.
  assert (Hq : 0 <= inject_Z n / inject_Z (pow10 d)).
  { apply Qle_shift_div_l; [exact Hp |].
    rewrite Qmult_0_l. change 0 with (inject_Z 0). now rewrite <- Zle_Qle. }
  destruct (Qlt_le_dec _ 0) as [Hneg | _]; [lra |].
  rewrite Qabs_pos by exact Hq.
  assert (E : inject_Z n / inject_Z (pow10 d) * inject_Z (pow10 d) + (1 # 2)
              == inject_Z n + (1 # 2)) by (field; lra).
  rewrite E.
  assert (F : Qfloor (inject_Z n + (1 # 2)) = n).
  { apply Z.le_antisymm.
    - apply Z.lt_succ_r. rewrite Zlt_Qlt.
      eapply Qle_lt_trans; [apply Qfloor_le |].
      unfold Z.succ. rewrite inject_Z_plus. change (inject_Z 1) with 1. lra.
    - rewrite <- (Qfloor_Z n) at 1. apply Qfloor_resp_le. lra. }
  rewrite F. reflexivity.
Qed.

Lemma toFixed_error (d : nat) (x : Q) :
  Qabs (toFixed d x - x) <= 1 # (2 * Z.to_pos (pow10 d)).
Proof.
  pose proof (pow10_pos d) as Hp.
  assert (Hpz : (0 < pow10 d)%Z) by (unfold pow10; apply Z.pow_pos_nonneg; lia).
  assert (Hhalf : (1 # (2 * Z.to_pos (pow10 d)))
                  == (1 # 2) / inject_Z (pow10 d)).
  { unfold Qeq, Qdiv, Qmult, Qinv, inject_Z. cbn.
    destruct (pow10 d) as [| p | p] eqn:E; try lia. cbn. lia. }
  rewrite Hhalf.
  assert (Hkey : forall y, 0 <= y ->
    Qabs (inject_Z (Qfloor (y * inject_Z (pow10 d) + (1 # 2)))
            / inject_Z (pow10 d) - y) <= (1 # 2) / inject_Z (pow10 d)).
  { intros y Hy.
    set (n := Qfloor (y * inject_Z (pow10 d) + (1 # 2))).
    pose proof (Qfloor_le (y * inject_Z (pow10 d) + (1 # 2))) as Hlo.
    pose proof (Qlt_floor (y * inject_Z (pow10 d) + (1 # 2))) as Hhi.
    fold n in Hlo, Hhi. rewrite inject_Z_plus in Hhi.
    change (inject_Z 1) with 1 in Hhi.
    assert (E : inject_Z n / inject_Z (pow10 d) - y
                == (inject_Z n - y * inject_Z (pow10 d)) / inject_Z (pow10 d))
      by (field; lra).
    rewrite E. apply Qabs_Qle_condition. split.
    - apply Qle_shift_div_l; [exact Hp |].
      assert (- ((1 # 2) / inject_Z (pow10 d)) * inject_Z (pow10 d) == - (1 # 2))
        by (field; lra).
      lra.
    - apply Qle_shift_div_r; [exact Hp |].
      assert ((1 # 2) / inject_Z (pow10 d) * inject_Z (pow10 d) == 1 # 2)
        by (field; lra).
      lra. }
  unfold toFixed. destruct (Qlt_le_dec x 0) as [Hneg | Hpos].
  - assert (Ea : Qfloor (Qabs x * inject_Z (pow10 d) + (1 # 2))
                 = Qfloor (- x * inject_Z (pow10 d) + (1 # 2))).
    { apply Qfloor_comp. rewrite Qabs_neg by lra. reflexivity. }
    rewrite Ea.
    specialize (Hkey (- x) ltac:(lra)).
    set (q := inject_Z (Qfloor (- x * inject_Z (pow10 d) + (1 # 2)))
              / inject_Z (pow10 d)) in *.
    assert (E : - q - x == - (q - - x)) by ring.
    rewrite E, Qabs_opp. exact Hkey.
  - assert (Ea : Qfloor (Qabs x * inject_Z (pow10 d) + (1 # 2))
                 = Qfloor (x * inject_Z (pow10 d) + (1 # 2))).
    { apply Qfloor_comp. rewrite Qabs_pos by exact Hpos. reflexivity. }
    rewrite Ea. apply Hkey, Hpos.
Qed.

(** ** The score *)

Lemma socio_score_range (r i h s : Q) : 0 <= socio_score r i h s <= 70.
Proof.
  unfold socio_score. cbv zeta.
  pose proof (normClip_range r 0 10).
  pose proof (normClip_range i 0 200).
  pose proof (normClip_range h 0 5).
  pose proof (normClip_range s 0 8).
  lra.
Qed.

Lemma toFixed_1_range (x : Q) : 0 <= x <= 70 -> 0 <= toFixed 1 x <= 70.
Proof.
  intros [Hlo Hhi]. split.
  - assert (E : toFixed 1 0 == 0) by reflexivity.
    rewrite <- E. now apply toFixed_mono.
  - assert (E : toFixed 1 70 == 70) by reflexivity.
    rewrite <- E. now apply toFixed_mono.
Qed.

Lemma compute_metrics_score turf_area turf_length b r1 r2 r3 m :
  compute_metrics turf_area turf_length b r1 r2 r3 = inr m ->
  0 <= SocioEconScore m <= 70.
Proof.
  unfold compute_metrics, res_bind. intros H.
  repeat match type of H with
         | match ?x with _ => _ end = _ => destruct x; try discriminate
         end.
  injection H as <-. cbn [SocioEconScore].
  apply toFixed_1_range, socio_score_range.
Qed.

(** ** Numbers and [NaN] *)

Lemma jsnum_intersection_density fc (x : Q) :
  JsNum.intersectionDensityPerKm2 fc (Some x)
  = match Density.intersectionDensityPerKm2 fc x with
    | inl e => inl e
    | inr q => inr (Some q)
    end.
Proof.
  unfold JsNum.intersectionDensityPerKm2, Density.intersectionDensityPerKm2.
  destruct fc as [c |]; [| reflexivity]. cbn [JsNum.is_zero].
  destruct (Qeq_bool x 0); [reflexivity |].
  destruct (features c) as [fs |]; [| reflexivity].
  destruct (length _ =? 0)%nat; reflexivity.
Qed.

Lemma jsnum_point_density fc (x : Q) :
  JsNum.pointDensityPerKm2 fc (Some x) = Some (Density.pointDensityPerKm2 fc x).
Proof.
  unfold JsNum.pointDensityPerKm2, Density.pointDensityPerKm2.
  destruct fc as [c |]; [| reflexivity]. cbn [JsNum.is_zero].
  destruct (Qeq_bool x 0); reflexivity.
Qed.

Section PipelineFacts.

Variable axios_post : string -> string -> nat -> res osmJson.
Variable settle_order : list nat.
Variable schedule : list nat.
Variable turf_area : list (list (jsval * jsval)) -> jsnum.
Variable turf_length : turf_line -> res Q.
Variable toStr : jsval -> string.
Variable areaReport : string.

Local Abbreviation analyze :=
  (analyzeBBox axios_post settle_order schedule turf_area turf_length toStr areaReport).
Local Abbreviation returned_of := (compute_returned turf_area turf_length).
Local Abbreviation fetch := (fetch_all axios_post settle_order schedule toStr).

(** When the area is a number, the source computes the metrics of
    [compute_metrics], every one of them a number. *)
Lemma compute_returned_number b r1 r2 r3 (a : Q) :
  turf_area (bboxPolygon b) = Some a ->
  returned_of b r1 r2 r3
  = match compute_metrics (fun _ => a) turf_length b r1 r2 r3 with
    | inl e => inl e
    | inr m => inr (all_numbers m)
    end.
Proof.
  intros Ha. unfold compute_returned, compute_metrics. rewrite Ha.
  destruct (Convert.osmToGeoJSON r1 ["way"]) as [e | roadsGeo];
    [reflexivity |]. cbn [res_bind].
  destruct (Convert.osmToGeoJSON r2 ["way"]) as [e | buildGeo];
    [reflexivity |]. cbn [res_bind].
  destruct (Convert.osmToGeoJSON r3 ["node"]) as [e | amenGeo];
    [reflexivity |]. cbn [res_bind].
  destruct (lengthKm turf_length (Some roadsGeo)) as [e | road_km];
    [reflexivity |]. cbn [res_bind].
  cbn [JsNum.div JsNum.lift2].
  rewrite jsnum_intersection_density.
  destruct (Density.intersectionDensityPerKm2 (Some roadsGeo) (a / 1000000))
    as [e | intxn]; [reflexivity |]. cbn [res_bind].
  destruct (filter_res (amenity_is "hospital") _) as [e | hosp];
    [reflexivity |]. cbn [res_bind].
  destruct (filter_res (amenity_is "school") _) as [e | scho];
    [reflexivity |]. cbn [res_bind].
  rewrite !jsnum_point_density. cbn [JsNum.is_zero].
  unfold all_numbers, JsNum.toFixed, JsNum.lift1, socio_score_js.
  destruct (Qeq_bool (a / 1000000) 0);
    cbn [area_km2 roads_km roads_km_per_km2 buildings_count
         buildings_per_km2 intersections_per_km2 hospitals_per_km2
         schools_per_km2 SocioEconScore];
    reflexivity.
Qed.

(** When the area is [NaN], so are the reported area and the score. *)
Lemma compute_returned_nan b r1 r2 r3 m :
  turf_area (bboxPolygon b) = None ->
  returned_of b r1 r2 r3 = inr m ->
  ret_area_km2 m = None /\ ret_SocioEconScore m = None.
Proof.
  intros Ha. unfold compute_returned. rewrite Ha.
  destruct (Convert.osmToGeoJSON r1 ["way"]) as [e | roadsGeo];
    [discriminate |]. cbn [res_bind].
  destruct (Convert.osmToGeoJSON r2 ["way"]) as [e | buildGeo];
    [discriminate |]. cbn [res_bind].
  destruct (Convert.osmToGeoJSON r3 ["node"]) as [e | amenGeo];
    [discriminate |]. cbn [res_bind].
  destruct (lengthKm turf_length (Some roadsGeo)) as [e | road_km];
    [discriminate |]. cbn [res_bind].
  destruct (JsNum.intersectionDensityPerKm2 _ _) as [e | intxn];
    [discriminate |]. cbn [res_bind].
  destruct (filter_res (amenity_is "hospital") _) as [e | hosp];
    [discriminate |]. cbn [res_bind].
  destruct (filter_res (amenity_is "school") _) as [e | scho];
    [discriminate |]. cbn [res_bind].
  intros [= <-]. split; reflexivity.
Qed.

(** A call that returns went through the validation, the three fetches
    and the metrics computation. *)
Lemma analyzeBBox_inv bbox opts log r log' :
  analyze bbox opts log = (inr r, log') ->
  exists b ai log0 log1 r1 r2 r3,
    bbox = JArr b /\ length b = 4%nat /\
    prepare_ai opts log = (inr ai, log0) /\
    fetch b (overpassRetries opts) log0 = (inr (r1, r2, r3), log1) /\
    returned_of b r1 r2 r3 = inr (res_metrics r) /\
    res_analysis r = areaReport /\ log' = log1.
Proof.
  unfold analyzeBBox. intros H.
  destruct bbox as [| | | | | b]; try discriminate.
  destruct (length b =? 4)%nat eqn:Hlen; [| discriminate].
  apply Nat.eqb_eq in Hlen. cbn [negb] in H.
  unfold bind at 1 in H.
  destruct (prepare_ai opts log) as [[e | ai] log0] eqn:Hai; [discriminate |].
  unfold bind at 1 in H.
  destruct (fetch b (overpassRetries opts) log0) as [[e | [[r1 r2] r3]] log1]
    eqn:Hf; [discriminate |].
  unfold bind, lift, generateGeminiAnalysis, ret in H.
  destruct (returned_of b r1 r2 r3) as [e | m] eqn:Hm; [discriminate |].
  injection H as <- <-.
  exists b, ai, log0, log1, r1, r2, r3. cbn. auto 10.
Qed.

(** The metrics of a call that returns on a box whose area is the number
    [a] are those of [compute_metrics] on that area, all of them numbers. *)
Lemma analyzeBBox_metrics_number bbox opts log r log' b a :
  analyze bbox opts log = (inr r, log') ->
  bbox = JArr b ->
  turf_area (bboxPolygon b) = Some a ->
  exists r1 r2 r3 m,
    compute_metrics (fun _ => a) turf_length b r1 r2 r3 = inr m /\
    res_metrics r = all_numbers m.
Proof.
  intros H -> Ha. apply analyzeBBox_inv in H.
  destruct H as (b' & ai & log0 & log1 & r1 & r2 & r3 & [= <-] & _ & _ & _ & Hm & _).
  rewrite (compute_returned_number b r1 r2 r3 a Ha) in Hm.
  destruct (compute_metrics _ turf_length b r1 r2 r3) as [e | m] eqn:Em;
    [discriminate |].
  injection Hm as <-. now exists r1, r2, r3, m.
Qed.

(** The score of a returned result: a number of [0, 70] exactly when the
    area of the box is a number, and [NaN] otherwise. *)
Lemma analyzeBBox_score_range bbox opts log r log' :
  analyze bbox opts log = (inr r, log') ->
  exists b, bbox = JArr b /\
    match turf_area (bboxPolygon b) with
    | Some _ =>
        exists s, ret_SocioEconScore (res_metrics r) = Some s /\ 0 <= s <= 70
    | None => ret_SocioEconScore (res_metrics r) = None
    end.
Proof.
  intros H. apply analyzeBBox_inv in H.
  destruct H as (b & ai & log0 & log1 & r1 & r2 & r3 & -> & _ & _ & _ & Hm & _).
  exists b. split; [reflexivity |].
  destruct (turf_area (bboxPolygon b)) as [a |] eqn:Ha.
  - rewrite (compute_returned_number b r1 r2 r3 a Ha) in Hm.
    destruct (compute_metrics _ turf_length b r1 r2 r3) as [e | m] eqn:Em;
      [discriminate |].
    injection Hm as <-. exists (SocioEconScore m). split; [reflexivity |].
    eapply compute_metrics_score, Em.
  - eapply compute_returned_nan; eassumption.
Qed.

End PipelineFacts.

(** ** Claims about the score *)




Section ScoreClaims.

Variable axios_post : string -> string -> nat -> res osmJson.
Variable settle_order : list nat.
Variable schedule : list nat.
Variable turf_area : list (list (jsval * jsval)) -> jsnum.
Variable turf_length : turf_line -> res Q.
Variable toStr : jsval -> string.
Variable areaReport : string.

Local Abbreviation analyze :=
  (analyzeBBox axios_post settle_order schedule turf_area turf_length toStr areaReport).

(** C1: whenever [analyzeBBox] returns on a valid input, that is on a box
    whose area is a number (as it is for four finite numbers), for any
    payloads and any measured lengths, the [SocioEconScore] of the returned
    metrics is a number of [0, 100].  On an accepted array whose box has
    the area [NaN] the returned score is [NaN]; so whenever a returned
    score is a number at all, it lies in [0, 100]. *)
Theorem SocioEconScore_in_0_100 bbox opts log r log' :
  analyze bbox opts log = (inr r, log') ->
  (forall b, bbox = JArr b -> is_Some (turf_area (bboxPolygon b)) ->
     exists s, ret_SocioEconScore (res_metrics r) = Some s /\ 0 <= s <= 100) /\
  (forall b, bbox = JArr b -> turf_area (bboxPolygon b) = None ->
     ret_SocioEconScore (res_metrics r) = None) /\
  (forall s, ret_SocioEconScore (res_metrics r) = Some s -> 0 <= s <= 100).
Proof.
  intros H.
  destruct (analyzeBBox_score_range _ _ _ _ _ _ _ _ _ _ _ _ H) as (b & -> & Hb).
  split; [| split].
  - intros b' [= <-] [a Ha]. rewrite Ha in Hb.
    destruct Hb as (s & Hs & Hr). exists s. split; [exact Hs | lra].
  - intros b' [= <-] Ha. now rewrite Ha in Hb.
  - intros s Hs. destruct (turf_area (bboxPolygon b)).
    + destruct Hb as (s' & Hs' & Hr). rewrite Hs in Hs'.
      injection Hs' as <-. lra.
    + rewrite Hs in Hb. discriminate.
Qed.

(** C9 (amended): whenever [analyzeBBox] returns, the [SocioEconScore] is
    a number of at most 70 when the area of the box is a number, since the
    activity and green terms are the constant 0; when the area is [NaN],
    the score is [NaN]. *)
Theorem SocioEconScore_at_most_70 bbox opts log r log' :
  analyze bbox opts log = (inr r, log') ->
  exists b, bbox = JArr b /\
    match turf_area (bboxPolygon b) with
    | Some _ =>
        exists s, ret_SocioEconScore (res_metrics r) = Some s /\ s <= 70
    | None => ret_SocioEconScore (res_metrics r) = None
    end.
Proof.
  intros H.
  destruct (analyzeBBox_score_range _ _ _ _ _ _ _ _ _ _ _ _ H) as (b & -> & Hb).
  exists b. split; [reflexivity |].
  destruct (turf_area (bboxPolygon b)); [| exact Hb].
  destruct Hb as (s & Hs & Hr). exists s. split; [exact Hs | lra].
Qed.

End ScoreClaims.

Lemma SocioEconScore_in_0_100_witness :
  match Sample.run Sample.bbox with
  | (inr r, _) =>
      (forall b, Sample.bbox = JArr b ->
         is_Some (Sample.area_js (bboxPolygon b)) ->
         exists s, ret_SocioEconScore (res_metrics r) = Some s /\ 0 <= s <= 100) /\
      (forall b, Sample.bbox = JArr b ->
         Sample.area_js (bboxPolygon b) = None ->
         ret_SocioEconScore (res_metrics r) = None) /\
      (forall s, ret_SocioEconScore (res_metrics r) = Some s -> 0 <= s <= 100)
  | _ => False
  end.
Proof.
  pose proof (SocioEconScore_in_0_100 Sample.server Sample.order Sample.sched
                Sample.area_js Sample.len Sample.show Sample.report Sample.bbox
                default_options []) as H.
  fold (Sample.run Sample.bbox) in H.
  destruct (Sample.run Sample.bbox) as [[e | r] l] eqn:E.
  - vm_compute in E. discriminate.
  - apply (H r l). reflexivity.
Defined.

(** C9, as stated for every input, fails: the four-element array with the
    entry ["north"] passes the validation, the area of its box is [NaN],
    the call returns, and the returned [SocioEconScore] is [NaN], not a
    number of at most 70. *)
Lemma score_is_NaN_for_a_non_numeric_box :
  Sample.area_js (bboxPolygon Sample.bad_quad) = None /\
  match Sample.run Sample.bad_bbox with
  | (inr r, _) =>
      ret_SocioEconScore (res_metrics r) = None /\
      ~ (exists s, ret_SocioEconScore (res_metrics r) = Some s /\ s <= 70)
  | _ => False
  end.
Proof.
  split; [reflexivity |].
  destruct (Sample.run Sample.bad_bbox) as [[e | r] l] eqn:E;
    vm_compute in E; [discriminate |].
  injection E as <- _. cbn. split; [reflexivity |].
  intros (s & Hs & _). discriminate.
Qed.

Lemma SocioEconScore_at_most_70_witness :
  match Sample.run Sample.bbox with
  | (inr r, _) =>
      exists b, Sample.bbox = JArr b /\
        match Sample.area_js (bboxPolygon b) with
        | Some _ =>
            exists s, ret_SocioEconScore (res_metrics r) = Some s /\ s <= 70
        | None => ret_SocioEconScore (res_metrics r) = None
        end
  | _ => False
  end.
Proof.
  pose proof (SocioEconScore_at_most_70 Sample.server Sample.order Sample.sched
                Sample.area_js Sample.len Sample.show Sample.report Sample.bbox
                default_options []) as H.
  fold (Sample.run Sample.bbox) in H.
  destruct (Sample.run Sample.bbox) as [[e | r] l] eqn:E.
  - vm_compute in E. discriminate.
  - apply (H r l). reflexivity.
Defined.

(** ** Claims about the conversion *)


Lemma props_of_lookup_ne (el : element) (k : string) :
  k ≠ "id" ->
  Convert.props_of el !! k = JStr <$> default ∅ (el_tags el) !! k.
Proof.
  intros Hk. unfold Convert.props_of.
  rewrite lookup_union, lookup_fmap, lookup_singleton_ne by congruence.
  now destruct (default ∅ (el_tags el) !! k).
Qed.




Lemma close_ring_shape (coords : list position) :
  length (Convert.close_ring coords) = S (length coords) /\
  head (Convert.close_ring coords) = Some (head coords) /\
  last (Convert.close_ring coords) = Some (head coords).
Proof.
  unfold Convert.close_ring. split; [| split].
  - rewrite length_app, length_map. cbn. lia.
  - now destruct coords.
  - apply last_snoc.
Qed.

(** C7: a way of the payload that passes the type filter, carries a
    geometry array of [n] entries and has a truthy [building] tag is
    converted to a feature whose geometry is a Polygon with one ring; the
    ring is the way's coordinates followed by their first entry, so it has
    [n + 1] entries and its first and last entries coincide. *)
Theorem building_way_closed_ring (o : osmJson) (gt : list string)
    (el : element) (g : list latlon) (v : string) :
  el ∈ default [] (elements o) ->
  Convert.includes gt "way" = true ->
  el_type el = "way" ->
  el_geometry el = Some g ->
  default ∅ (el_tags el) !! "building" = Some v ->
  v ≠ "" ->
  exists fc f ring,
    Convert.osmToGeoJSON (Some o) gt = inr fc /\
    f ∈ default [] (features fc) /\
    geometry f = Some (Polygon [ring]) /\
    properties f = Convert.props_of el /\
    ring = map Some (Convert.coords_of g) ++ [head (Convert.coords_of g)] /\
    length ring = S (length g) /\
    head ring = last ring.
Proof.
  intros Hel Hgt Hty Hg Hb Hv.
  set (ring := Convert.close_ring (Convert.coords_of g)).
  set (f := {| geometry := Some (Polygon [ring]);
               properties := Convert.props_of el |}).
  assert (Hc : Convert.convert_element gt el = Some f).
  { unfold Convert.convert_element. rewrite Hty, Hgt, Hg. cbn.
    unfold Convert.get. rewrite props_of_lookup_ne by discriminate.
    rewrite Hb. cbn.
    destruct (String.eqb v "") eqn:Ev; [apply String.eqb_eq in Ev; contradiction |].
    reflexivity. }
  eexists _, f, ring. split; [reflexivity |].
  split; [cbn; apply list_elem_of_omap; eauto |].
  split; [reflexivity |]. split; [reflexivity |].
  split; [reflexivity |].
  destruct (close_ring_shape (Convert.coords_of g)) as (Hlen & Hh & Hl).
  split.
  - subst ring. rewrite Hlen. unfold Convert.coords_of. now rewrite length_map.
  - subst ring. now rewrite Hh, Hl.
Qed.

Lemma building_way_closed_ring_witness :
  exists fc f ring,
    Convert.osmToGeoJSON (Some Sample.buildings) Convert.default_geomTypes = inr fc /\
    f ∈ default [] (features fc) /\
    geometry f = Some (Polygon [ring]) /\
    properties f = Convert.props_of Sample.house /\
    ring = map Some (Convert.coords_of Sample.house_geometry)
           ++ [head (Convert.coords_of Sample.house_geometry)] /\
    length ring = S (length Sample.house_geometry) /\
    head ring = last ring.
Proof.
  apply (building_way_closed_ring Sample.buildings Convert.default_geomTypes
           Sample.house Sample.house_geometry "yes").
  - apply list_elem_of_here.
  - reflexivity.
  - reflexivity.
  - reflexivity.
  - vm_compute. reflexivity.
  - discriminate.
Defined.

(** ** Claims about the fetch *)

Section FetchFacts.

Variable axios_post : string -> string -> nat -> res osmJson.

Local Abbreviation fetch1 := (overpass axios_post).
Local Abbreviation loop := (overpass_loop axios_post).
Local Abbreviation answer := (axios_post overpass_url).

Lemma posts_of_post query log :
  posts_of query (log ++ [Post overpass_url query]) = S (posts_of query log).
Proof.
  unfold posts_of. rewrite filter_app, length_app. cbn.
  rewrite decide_True by reflexivity. cbn. lia.
Qed.

Lemma posts_of_sleep query log ms :
  posts_of query (log ++ [Sleep ms]) = posts_of query log.
Proof.
  unfold posts_of. rewrite filter_app, length_app. cbn.
  rewrite decide_False by discriminate. cbn. lia.
Qed.

Lemma retry_log_S query pauseMs k :
  Ref.retry_log query pauseMs (S k) =
  Post overpass_url query :: Sleep pauseMs :: Ref.retry_log query pauseMs k.
Proof. reflexivity. Qed.

Lemma overpass_loop_succeeds query retries pauseMs payload :
  forall (k fuel : nat) (attempt : Z) (log : list event),
    (attempt + Z.of_nat k <= retries)%Z ->
    (k < fuel)%nat ->
    (forall i, (i < k)%nat ->
       exists e, answer query (posts_of query log + i)%nat = inl e) ->
    answer query (posts_of query log + k)%nat = inr payload ->
    loop query retries pauseMs fuel attempt log =
      (inr (Some payload), log ++ Ref.retry_log query pauseMs k).
Proof.
  induction k as [| k IH]; intros fuel attempt log Hle Hfuel Hfail Hok;
    (destruct fuel as [| fuel]; [lia |]); cbn [overpass_loop].
  - assert (Ha : (attempt <=? retries)%Z = true) by (apply Z.leb_le; lia).
    rewrite Ha. unfold bind, post.
    rewrite Nat.add_0_r in Hok. rewrite Hok. reflexivity.
  - assert (Ha : (attempt <=? retries)%Z = true) by (apply Z.leb_le; lia).
    assert (Hb : (attempt <? retries)%Z = true) by (apply Z.ltb_lt; lia).
    rewrite Ha. unfold bind at 1. unfold post at 1.
    destruct (Hfail 0%nat ltac:(lia)) as [e He].
    rewrite Nat.add_0_r in He. rewrite He, Hb.
    unfold bind, emit.
    rewrite (IH fuel (attempt + 1)%Z).
    + rewrite retry_log_S, <- !app_assoc. reflexivity.
    + lia.
    + lia.
    + intros i Hi. rewrite posts_of_sleep, posts_of_post.
      destruct (Hfail (S i) ltac:(lia)) as [e' He'].
      exists e'. rewrite <- He'. f_equal. lia.
    + rewrite posts_of_sleep, posts_of_post. rewrite <- Hok. f_equal. lia.
Qed.

Lemma overpass_loop_exhausted query retries pauseMs (errs : nat -> exn) :
  forall (k fuel : nat) (attempt : Z) (log : list event),
    (attempt + Z.of_nat k = retries)%Z ->
    (k < fuel)%nat ->
    (forall i, (i <= k)%nat ->
       answer query (posts_of query log + i)%nat = inl (errs i)) ->
    loop query retries pauseMs fuel attempt log =
      (inl (errs k), log ++ Ref.retry_log query pauseMs k).
Proof.
  intros k. revert errs.
  induction k as [| k IH]; intros errs fuel attempt log Hle Hfuel Hfail;
    (destruct fuel as [| fuel]; [lia |]); cbn [overpass_loop].
  - assert (Ha : (attempt <=? retries)%Z = true) by (apply Z.leb_le; lia).
    assert (Hb : (attempt <? retries)%Z = false) by (apply Z.ltb_ge; lia).
    rewrite Ha. unfold bind, post.
    pose proof (Hfail 0%nat ltac:(lia)) as He.
    rewrite Nat.add_0_r in He. rewrite He, Hb. reflexivity.
  - assert (Ha : (attempt <=? retries)%Z = true) by (apply Z.leb_le; lia).
    assert (Hb : (attempt <? retries)%Z = true) by (apply Z.ltb_lt; lia).
    rewrite Ha. unfold bind at 1. unfold post at 1.
    pose proof (Hfail 0%nat ltac:(lia)) as He.
    rewrite Nat.add_0_r in He. rewrite He, Hb.
    unfold bind, emit.
    rewrite (IH (fun i => errs (S i)) fuel (attempt + 1)%Z).
    + rewrite retry_log_S, <- !app_assoc. reflexivity.
    + lia.
    + lia.
    + intros i Hi. rewrite posts_of_sleep, posts_of_post.
      rewrite <- (Hfail (S i)) by lia. f_equal. lia.
Qed.

(** C4: with a retry count [r >= 0], a fetch whose first [k <= r] posts
    fail and whose next post succeeds returns that payload unchanged,
    after [k] pauses; a fetch whose [r + 1] posts all fail throws the
    failure of the last post. *)
Theorem overpass_retries_then_result (query : string) (retries pauseMs : Z)
    (log : list event) :
  (0 <= retries)%Z ->
  (forall (k : nat) (payload : osmJson),
      (Z.of_nat k <= retries)%Z ->
      (forall i, (i < k)%nat ->
         exists e, answer query (posts_of query log + i)%nat = inl e) ->
      answer query (posts_of query log + k)%nat = inr payload ->
      fetch1 query retries pauseMs log =
        (inr (Some payload), log ++ Ref.retry_log query pauseMs k)) /\
  (forall errs : nat -> exn,
      (forall i, (Z.of_nat i <= retries)%Z ->
         answer query (posts_of query log + i)%nat = inl (errs i)) ->
      fetch1 query retries pauseMs log =
        (inl (errs (Z.to_nat retries)),
         log ++ Ref.retry_log query pauseMs (Z.to_nat retries))).
Proof.
  intros Hr. split.
  - intros k payload Hk Hfail Hok. unfold overpass.
    apply overpass_loop_succeeds; [lia | lia | exact Hfail | exact Hok].
  - intros errs Hfail. unfold overpass.
    apply overpass_loop_exhausted; [lia | lia |].
    intros i Hi. apply Hfail. lia.
Qed.

End FetchFacts.

Lemma overpass_retries_then_result_witness :
  overpass (Sample.flaky 1) "q" 1 1500 [] =
    (inr (Some Sample.amenities), [] ++ Ref.retry_log "q" 1500 1).
Proof.
  apply (overpass_retries_then_result (Sample.flaky 1) "q" 1 1500 []).
  - lia.
  - lia.
  - intros i Hi. assert (i = 0%nat) as -> by lia.
    eexists. vm_compute. reflexivity.
  - vm_compute. reflexivity.
Defined.

(** ** The log only grows *)

Lemma extends_ret {A} (a : A) : extends (ret a).
Proof. intros log r log' [= <- <-]. exists []. now rewrite app_nil_r. Qed.

Lemma extends_throw {A} (e : exn) : extends (@throw A e).
Proof. intros log r log' [= <- <-]. exists []. now rewrite app_nil_r. Qed.

Lemma extends_lift {A} (x : res A) : extends (lift x).
Proof. intros log r log' [= <- <-]. exists []. now rewrite app_nil_r. Qed.

Lemma extends_emit (ev : event) : extends (emit ev).
Proof. intros log r log' [= <- <-]. now exists [ev]. Qed.

Lemma extends_bind {A B} (m : M A) (k : A -> M B) :
  extends m -> (forall a, extends (k a)) -> extends (bind m k).
Proof.
  intros Hm Hk log r log'. unfold bind.
  destruct (m log) as [[e | a] log1] eqn:E; intros H.
  - injection H as <- <-. eapply Hm, E.
  - destruct (Hm _ _ _ E) as [l1 ->]. destruct (Hk a _ _ _ H) as [l2 ->].
    exists (l1 ++ l2). now rewrite app_assoc.
Qed.

(** ** Merging the events of concurrent fetches *)

Lemma weave_nils (schedule : list nat) (ts : list (list event)) :
  Forall (fun t => t = []) ts -> weave schedule ts = [].
Proof.
  intros Hts. induction schedule as [| i rest IH]; cbn [weave].
  - induction Hts as [| t ts -> _ IHts]; [reflexivity | exact IHts].
  - destruct (ts !! i) as [[| ev t] |] eqn:E; try exact IH.
    apply list_elem_of_lookup_2 in E.
    rewrite Forall_forall in Hts. apply Hts in E. discriminate.
Qed.

Lemma concat_insert_cons (ts : list (list event)) (i : nat) ev t :
  ts !! i = Some (ev :: t) -> concat ts ≡ₚ ev :: concat (<[i := t]> ts).
Proof.
  revert i. induction ts as [| u ts IH]; intros [| i] E; try discriminate.
  - injection E as ->. reflexivity.
  - cbn in E |- *. rewrite (IH i E). symmetry. apply Permutation_middle.
Qed.

Lemma weave_Permutation (schedule : list nat) (ts : list (list event)) :
  weave schedule ts ≡ₚ concat ts.
Proof.
  revert ts. induction schedule as [| i rest IH]; intros ts; cbn [weave];
    [reflexivity |].
  destruct (ts !! i) as [[| ev t] |] eqn:E; try apply IH.
  rewrite IH. symmetry. now apply concat_insert_cons.
Qed.

Lemma interleave_Permutation (schedule : list nat) (ts : list (list event)) :
  interleave schedule ts ≡ₚ concat ts.
Proof.
  unfold interleave. rewrite weave_Permutation.
  induction ts as [| t ts IH]; [reflexivity |].
  cbn [map concat]. rewrite <- (take_drop 1 t) at 3.
  rewrite <- !app_assoc. apply Permutation_app_head.
  rewrite app_assoc, (Permutation_app_comm (concat _) (drop 1 t)).
  rewrite <- app_assoc. apply Permutation_app_head, IH.
Qed.

Lemma interleave_singletons (schedule : list nat) (e1 e2 e3 : event) :
  interleave schedule [[e1]; [e2]; [e3]] = [e1; e2; e3].
Proof.
  unfold interleave. cbn [map take drop concat app].
  rewrite weave_nils; [reflexivity |]. repeat constructor.
Qed.

Lemma interleave_nils (schedule : list nat) :
  interleave schedule [[]; []; []] = [].
Proof.
  unfold interleave. cbn [map take drop concat app].
  apply weave_nils. repeat constructor.
Qed.

Section LogFacts.

Variable axios_post : string -> string -> nat -> res osmJson.
Variable settle_order : list nat.
Variable schedule : list nat.
Variable turf_area : list (list (jsval * jsval)) -> jsnum.
Variable turf_length : turf_line -> res Q.
Variable toStr : jsval -> string.
Variable areaReport : string.

Local Abbreviation analyze :=
  (analyzeBBox axios_post settle_order schedule turf_area turf_length toStr areaReport).
Local Abbreviation fetch := (fetch_all axios_post settle_order schedule toStr).
Local Abbreviation settled := (settled_fetches axios_post schedule toStr).

Lemma extends_post query : extends (post axios_post query).
Proof. intros log r log' [= <- <-]. now eexists. Qed.

Lemma extends_overpass_loop query retries pauseMs fuel :
  forall attempt, extends (overpass_loop axios_post query retries pauseMs fuel attempt).
Proof.
  induction fuel as [| fuel IH]; intros attempt; cbn [overpass_loop].
  - apply extends_ret.
  - destruct (attempt <=? retries)%Z; [| apply extends_ret].
    apply extends_bind; [apply extends_post |].
    intros [e | data]; [| apply extends_ret].
    destruct (attempt <? retries)%Z; [| apply extends_throw].
    apply extends_bind; [apply extends_emit | intros _; apply IH].
Qed.

Lemma extends_overpass query retries pauseMs :
  extends (overpass axios_post query retries pauseMs).
Proof. apply extends_overpass_loop. Qed.

(** With a retry count [r >= 0] the first thing a fetch does is to post. *)
Lemma overpass_posts_first query retries pauseMs log r log' :
  (0 <= retries)%Z ->
  overpass axios_post query retries pauseMs log = (r, log') ->
  exists l, log' = log ++ Post overpass_url query :: l.
Proof.
  intros Hr. unfold overpass.
  destruct (Z.to_nat (retries + 1)) as [| fuel] eqn:Ef; [lia |].
  cbn [overpass_loop].
  assert (Ha : (0 <=? retries)%Z = true) by (apply Z.leb_le; lia).
  rewrite Ha. unfold bind at 1. unfold post at 1.
  destruct (axios_post _ _ _) as [e | data].
  - destruct (0 <? retries)%Z.
    + intros H.
      assert (Hext : extends (bind (emit (Sleep pauseMs)) (fun _ =>
                 overpass_loop axios_post query retries pauseMs fuel (0 + 1)%Z))).
      { apply extends_bind; [apply extends_emit |].
        intros _. apply extends_overpass_loop. }
      destruct (Hext _ _ _ H) as [l ->]. exists l. now rewrite <- app_assoc.
    + intros [= <- <-]. now exists [].
  - intros [= <- <-]. now exists [].
Qed.

(** The three fetches run from the same log; their events are merged. *)
Lemma settled_run b retries log r1 t1 r2 t2 r3 t3 :
  overpass axios_post (Q_ROADS toStr b) retries default_pauseMs log
    = (r1, log ++ t1) ->
  overpass axios_post (Q_BUILD toStr b) retries default_pauseMs log
    = (r2, log ++ t2) ->
  overpass axios_post (Q_AMEN toStr b) retries default_pauseMs log
    = (r3, log ++ t3) ->
  settled b retries log
    = (inr (r1, r2, r3), log ++ interleave schedule [t1; t2; t3]).
Proof.
  intros H1 H2 H3. unfold settled_fetches, bind, detached, emit_all, ret.
  rewrite H1, H2, H3. cbn [fst snd].
  now rewrite !drop_app_length.
Qed.

Lemma overpass_appends query retries pauseMs log :
  exists r t, overpass axios_post query retries pauseMs log = (r, log ++ t).
Proof.
  destruct (overpass axios_post query retries pauseMs log) as [r log'] eqn:E.
  destruct (extends_overpass _ _ _ _ _ _ E) as [t ->]. eauto.
Qed.

Lemma settled_spec b retries log :
  exists r1 t1 r2 t2 r3 t3,
    overpass axios_post (Q_ROADS toStr b) retries default_pauseMs log
      = (r1, log ++ t1) /\
    overpass axios_post (Q_BUILD toStr b) retries default_pauseMs log
      = (r2, log ++ t2) /\
    overpass axios_post (Q_AMEN toStr b) retries default_pauseMs log
      = (r3, log ++ t3) /\
    settled b retries log
      = (inr (r1, r2, r3), log ++ interleave schedule [t1; t2; t3]).
Proof.
  destruct (overpass_appends (Q_ROADS toStr b) retries default_pauseMs log)
    as (r1 & t1 & H1).
  destruct (overpass_appends (Q_BUILD toStr b) retries default_pauseMs log)
    as (r2 & t2 & H2).
  destruct (overpass_appends (Q_AMEN toStr b) retries default_pauseMs log)
    as (r3 & t3 & H3).
  exists r1, t1, r2, t2, r3, t3. repeat (split; [assumption |]).
  now apply settled_run.
Qed.

Lemma extends_settled b retries : extends (settled b retries).
Proof.
  intros log r log' H.
  destruct (settled_spec b retries log) as (? & ? & ? & ? & ? & ? & _ & _ & _ & E).
  rewrite E in H. injection H as _ <-. now eexists.
Qed.

Lemma extends_fetch_all b retries : extends (fetch b retries).
Proof.
  unfold fetch_all. apply extends_bind; [apply extends_settled |].
  intros [[r1 r2] r3]. apply extends_lift.
Qed.

Lemma extends_prepare_ai opts : extends (prepare_ai opts).
Proof.
  unfold prepare_ai. destruct (useGemini opts); [| apply extends_ret].
  destruct (negb _); [| apply extends_ret].
  apply extends_bind; [apply extends_emit | intros _; apply extends_ret].
Qed.

Lemma prepare_ai_returns opts log :
  exists ai, prepare_ai opts log = (inr ai, snd (prepare_ai opts log)).
Proof.
  unfold prepare_ai. destruct (useGemini opts); [| now eexists].
  destruct (negb _); now eexists.
Qed.

Lemma settled_returns b retries log :
  exists r1 r2 r3,
    settled b retries log = (inr (r1, r2, r3), snd (settled b retries log)).
Proof.
  destruct (settled_spec b retries log) as (r1 & ? & r2 & ? & r3 & ? & _ & _ & _ & E).
  rewrite E. cbn [snd]. eauto.
Qed.

(** What a call on an array of four entries unfolds to. *)
Lemma analyzeBBox_quad b opts :
  length b = 4%nat ->
  analyze (JArr b) opts =
  bind (prepare_ai opts) (fun ai =>
  bind (fetch b (overpassRetries opts)) (fun os =>
    let '(roadsOs, buildOs, amenOs) := os in
    bind (lift (compute_returned turf_area turf_length b roadsOs buildOs amenOs))
      (fun m =>
    bind (generateGeminiAnalysis areaReport ai m (model opts)) (fun a =>
    ret {| res_metrics := m; res_analysis := a |})))).
Proof.
  intros Hb. unfold analyzeBBox. rewrite Hb. reflexivity.
Qed.

Lemma bind_snd_extends {A B} (m : M A) (k : A -> M B) log r log1 :
  m log = (r, log1) -> (forall a, extends (k a)) ->
  exists l, snd (bind m k log) = log1 ++ l.
Proof.
  intros Hm Hk. unfold bind. rewrite Hm. destruct r as [e | a].
  - exists []. now rewrite app_nil_r.
  - destruct (k a log1) as [r' log2] eqn:E. apply Hk in E as [l ->]. now exists l.
Qed.

Lemma prepare_ai_log opts log :
  exists ai l0, prepare_ai opts log = (inr ai, log ++ l0) /\ Ref.count_posts l0 = 0%nat.
Proof.
  unfold prepare_ai. destruct (useGemini opts).
  - destruct (negb _).
    + eexists _, [_]. split; reflexivity.
    + eexists _, []. rewrite app_nil_r. split; reflexivity.
  - eexists _, []. rewrite app_nil_r. split; reflexivity.
Qed.

Lemma fetch_snd b retries log :
  snd (fetch b retries log) = snd (settled b retries log).
Proof.
  unfold fetch_all, bind.
  destruct (settled_returns b retries log) as (r1 & r2 & r3 & ->).
  cbn [snd]. unfold lift. reflexivity.
Qed.

Lemma fetch_posts_first b retries log x log1 :
  (0 <= retries)%Z ->
  fetch b retries log = (x, log1) ->
  exists l, log1 = log ++ Post overpass_url (Q_ROADS toStr b) :: l.
Proof.
  intros Hr H. apply (f_equal snd) in H. rewrite fetch_snd in H. cbn [snd] in H.
  destruct (settled_spec b retries log)
    as (r1 & t1 & r2 & t2 & r3 & t3 & H1 & H2 & H3 & E).
  rewrite E in H. cbn [snd] in H. subst log1.
  apply overpass_posts_first in H1 as [l1 E1]; [| exact Hr].
  apply app_inv_head in E1. subst t1.
  unfold interleave. cbn. now eexists.
Qed.

Lemma overpass_negative query retries pauseMs log :
  (retries < 0)%Z ->
  overpass axios_post query retries pauseMs log = (inr None, log).
Proof.
  intros Hr. unfold overpass.
  replace (Z.to_nat (retries + 1)) with 0%nat by lia. reflexivity.
Qed.

Lemma extends_analyzeBBox bbox opts : extends (analyze bbox opts).
Proof.
  unfold analyzeBBox.
  destruct bbox; try apply extends_throw.
  destruct (negb _); [apply extends_throw |].
  apply extends_bind; [apply extends_prepare_ai | intros ai].
  apply extends_bind; [apply extends_fetch_all | intros [[r1 r2] r3]].
  apply extends_bind; [apply extends_lift | intros m].
  apply extends_bind; [apply extends_ret | intros a; apply extends_ret].
Qed.

End LogFacts.

(** ** Claims about the orchestration *)

Lemma first_rejection_Some {A} (order : list nat) (rs : list (res A)) (e : exn) :
  first_rejection order rs = Some e -> inl e ∈ rs.
Proof.
  induction order as [| i order IH]; cbn; [discriminate |].
  destruct (rs !! i) as [[e' | a] |] eqn:E; auto.
  intros [= ->]. apply list_elem_of_lookup. eauto.
Qed.

Lemma first_rejection_None {A} (order : list nat) (rs : list (res A)) :
  (forall e, inl e ∉ rs) -> first_rejection order rs = None.
Proof.
  intros Hrs. induction order as [| i order IH]; cbn; [reflexivity |].
  destruct (rs !! i) as [[e' | a] |] eqn:E; auto.
  exfalso. apply (Hrs e'). apply list_elem_of_lookup. eauto.
Qed.

Lemma Promise_all_rejects {A} (order : list nat) (r1 r2 r3 : res A) (e0 : exn) :
  inl e0 ∈ [r1; r2; r3] ->
  exists e, inl e ∈ [r1; r2; r3] /\ Promise_all order r1 r2 r3 = inl e.
Proof.
  intros H0. unfold Promise_all.
  destruct (first_rejection order [r1; r2; r3]) as [e |] eqn:E.
  - exists e. split; [eapply first_rejection_Some, E | reflexivity].
  - destruct r1 as [e1 | a1].
    { exists e1. split; [apply list_elem_of_here | reflexivity]. }
    destruct r2 as [e2 | a2].
    { exists e2. split; [apply list_elem_of_further, list_elem_of_here | reflexivity]. }
    destruct r3 as [e3 | a3].
    { exists e3. split; [do 2 apply list_elem_of_further; apply list_elem_of_here
                        | reflexivity]. }
    exfalso. repeat (apply elem_of_cons in H0 as [H0 | H0]; [discriminate |]).
    now apply elem_of_nil in H0.
Qed.

Lemma is_quad_dec (bbox : jsval) : {Ref.is_quad bbox} + {~ Ref.is_quad bbox}.
Proof.
  destruct bbox as [| | | | | b];
    try (right; intros (b' & Hb & _); discriminate).
  destruct (decide (length b = 4%nat)) as [Hl | Hl].
  - left. now exists b.
  - right. intros (b' & [= <-] & Hb). contradiction.
Qed.

Section OrchestratorClaims.

Variable axios_post : string -> string -> nat -> res osmJson.
Variable settle_order : list nat.
Variable schedule : list nat.
Variable turf_area : list (list (jsval * jsval)) -> jsnum.
Variable turf_length : turf_line -> res Q.
Variable toStr : jsval -> string.
Variable areaReport : string.

Local Abbreviation analyze :=
  (analyzeBBox axios_post settle_order schedule turf_area turf_length toStr areaReport).
Local Abbreviation fetch := (fetch_all axios_post settle_order schedule toStr).
Local Abbreviation settled := (settled_fetches axios_post schedule toStr).

Lemma extends_after_fetch b ai opts :
  forall os : option osmJson * option osmJson * option osmJson,
    extends (let '(roadsOs, buildOs, amenOs) := os in
     bind (lift (compute_returned turf_area turf_length b roadsOs buildOs amenOs))
       (fun m =>
     bind (generateGeminiAnalysis areaReport ai m (model opts)) (fun a =>
     ret {| res_metrics := m; res_analysis := a |}))).
Proof.
  intros [[r1 r2] r3].
  apply extends_bind; [apply extends_lift | intros m].
  apply extends_bind; [apply extends_ret | intros a; apply extends_ret].
Qed.

Lemma quad_call_posts b opts log :
  length b = 4%nat ->
  (0 <= overpassRetries opts)%Z ->
  exists l0 l1,
    snd (analyze (JArr b) opts log) =
      log ++ l0 ++ Post overpass_url (Q_ROADS toStr b) :: l1 /\
    Ref.count_posts l0 = 0%nat.
Proof.
  intros Hb Hr. rewrite analyzeBBox_quad by exact Hb.
  destruct (prepare_ai_log opts log) as (ai & l0 & Hai & Hc).
  unfold bind at 1. rewrite Hai.
  destruct (fetch b (overpassRetries opts) (log ++ l0)) as [x log1] eqn:Ef.
  destruct (fetch_posts_first axios_post settle_order schedule toStr
              b _ _ _ _ Hr Ef) as [l ->].
  destruct (bind_snd_extends _ _ _ _ _ Ef (extends_after_fetch b ai opts))
    as [l' ->].
  exists l0, (l ++ l'). split; [| exact Hc].
  now rewrite <- !app_assoc.
Qed.

Lemma quad_call_negative_retries b opts log :
  length b = 4%nat ->
  (overpassRetries opts < 0)%Z ->
  exists msg log', analyze (JArr b) opts log = (inl (TypeError msg), log').
Proof.
  intros Hb Hr. rewrite analyzeBBox_quad by exact Hb.
  destruct (prepare_ai_log opts log) as (ai & l0 & Hai & Hc).
  unfold bind at 1. rewrite Hai.
  unfold fetch_all, bind.
  rewrite (settled_run axios_post schedule toStr b (overpassRetries opts)
             (log ++ l0) (inr None) [] (inr None) [] (inr None) [])
    by (rewrite app_nil_r; now apply overpass_negative).
  assert (Hp : Promise_all settle_order (inr None) (inr None) (inr None)
               = inr (@None osmJson, @None osmJson, @None osmJson)).
  { unfold Promise_all. rewrite first_rejection_None; [reflexivity |].
    intros e He.
    repeat (apply elem_of_cons in He as [He | He]; [discriminate |]).
    now apply elem_of_nil in He. }
  unfold ret, lift. cbv beta iota zeta. rewrite Hp.
  cbn. now eexists _, _.
Qed.

(** C3, as stated, fails: a four-element array with a non-numeric entry
    passes the validation, and the three queries are posted. *)
Lemma non_numeric_bbox_is_fetched :
  (length Sample.bad_quad = 4%nat /\ JStr "north" ∈ Sample.bad_quad) /\
  fst (Sample.run Sample.bad_bbox) <> inl bbox_error /\
  Ref.count_posts (snd (Sample.run Sample.bad_bbox)) = 3%nat.
Proof.
  split; [split; [reflexivity | apply list_elem_of_here] |].
  split; [vm_compute; discriminate | vm_compute; reflexivity].
Qed.

(** C3 (amended): [analyzeBBox] throws its validation error, with no
    effect performed, exactly when [bbox] is not an array of length 4; the
    entries are not inspected.  On every array of length 4 (and a retry
    count that is not negative) the first request performed is the post
    of the road query. *)
Theorem bbox_validation_is_shape_only bbox opts log :
  (analyze bbox opts log = (inl bbox_error, log) <-> ~ Ref.is_quad bbox) /\
  (forall b, bbox = JArr b -> length b = 4%nat ->
     (0 <= overpassRetries opts)%Z ->
     exists l0 l1,
       snd (analyze bbox opts log) =
         log ++ l0 ++ Post overpass_url (Q_ROADS toStr b) :: l1 /\
       Ref.count_posts l0 = 0%nat).
Proof.
  split.
  - split.
    + intros H (b & -> & Hb).
      destruct (Z_lt_le_dec (overpassRetries opts) 0) as [Hr | Hr].
      * destruct (quad_call_negative_retries b opts log Hb Hr) as (msg & l & E).
        rewrite E in H. discriminate.
      * destruct (quad_call_posts b opts log Hb Hr) as (l0 & l1 & E & _).
        rewrite H in E. cbn in E.
        apply (f_equal length) in E. rewrite !length_app in E. cbn in E. lia.
    + intros Hn. unfold analyzeBBox.
      destruct bbox as [| | | | | b]; try reflexivity.
      destruct (length b =? 4)%nat eqn:E; [| reflexivity].
      exfalso. apply Hn. exists b. split; [reflexivity |].
      now apply Nat.eqb_eq.
  - intros b -> Hb Hr. now apply quad_call_posts.
Qed.

(** C5: when one of the three settled fetches is a rejection, the call
    throws a rejection of one of the fetches, whatever the other two
    returned, and returns no result; when the rejections all carry the same
    error, in particular when only one fetch failed, the call throws that
    error. *)
Theorem one_failed_fetch_fails_the_call b opts log r1 r2 r3 log1 e0 :
  length b = 4%nat ->
  settled b (overpassRetries opts) (snd (prepare_ai opts log))
    = (inr (r1, r2, r3), log1) ->
  inl e0 ∈ [r1; r2; r3] ->
  (exists e, inl e ∈ [r1; r2; r3] /\
             analyze (JArr b) opts log = (inl e, log1)) /\
  ((forall e', inl e' ∈ [r1; r2; r3] -> e' = e0) ->
   analyze (JArr b) opts log = (inl e0, log1)).
Proof.
  intros Hb Hs H0.
  destruct (Promise_all_rejects settle_order r1 r2 r3 e0 H0) as (e & He & Hp).
  assert (Hrun : analyze (JArr b) opts log = (inl e, log1)).
  { rewrite analyzeBBox_quad by exact Hb.
    destruct (prepare_ai_returns opts log) as [ai Hai].
    unfold bind at 1. rewrite Hai.
    unfold bind at 1. unfold fetch_all. unfold bind at 1.
    rewrite Hs. unfold lift. rewrite Hp. reflexivity. }
  split.
  - exists e. split; assumption.
  - intros Hall. rewrite <- (Hall e He). exact Hrun.
Qed.

End OrchestratorClaims.

(** The three posts are made before any pause: on a server on which
    only the building query fails, with one retry, the log of the three
    fetches is the three posts, then the pause and the second post of the
    building query. *)
Lemma concurrent_fetches_post_first :
  snd (settled_fetches Sample.no_buildings Sample.sched Sample.show
         Sample.quad 1 [])
  = [Post overpass_url (Q_ROADS Sample.show Sample.quad);
     Post overpass_url (Q_BUILD Sample.show Sample.quad);
     Post overpass_url (Q_AMEN Sample.show Sample.quad);
     Sleep 1500;
     Post overpass_url (Q_BUILD Sample.show Sample.quad)].
Proof. vm_compute. reflexivity. Qed.

Lemma one_failed_fetch_fails_the_call_witness :
  match settled_fetches Sample.no_buildings Sample.sched Sample.show
          Sample.quad 1 (snd (prepare_ai default_options [])) with
  | (inr (r1, r2, r3), log1) =>
      (exists e, inl e ∈ [r1; r2; r3] /\
         analyzeBBox Sample.no_buildings Sample.order Sample.sched Sample.area_js Sample.len
           Sample.show Sample.report Sample.bbox default_options []
         = (inl e, log1)) /\
      ((forall e', inl e' ∈ [r1; r2; r3] -> e' = AxiosError "timeout 1") ->
       analyzeBBox Sample.no_buildings Sample.order Sample.sched Sample.area_js Sample.len
         Sample.show Sample.report Sample.bbox default_options []
       = (inl (AxiosError "timeout 1"), log1))
  | _ => False
  end.
Proof.
  destruct (settled_fetches Sample.no_buildings Sample.sched Sample.show
              Sample.quad 1 (snd (prepare_ai default_options [])))
    as [[e | [[r1 r2] r3]] log1] eqn:E.
  - vm_compute in E. discriminate.
  - apply (one_failed_fetch_fails_the_call Sample.no_buildings Sample.order
             Sample.sched Sample.area_js Sample.len Sample.show Sample.report
             Sample.quad
             default_options [] r1 r2 r3 log1 (AxiosError "timeout 1")).
    + reflexivity.
    + exact E.
    + vm_compute in E. injection E as <- <- <- <-.
      apply list_elem_of_further, list_elem_of_here.
Defined.

(** ** The key of a grid cell *)

Lemma comma_free_pretty_N_go (x : N) (s : string) :
  Ref.comma_free s = true -> Ref.comma_free (pretty_N_go x s) = true.
Proof.
  revert s. induction (N.lt_wf_0 x) as [x _ IH]; intros s Hs.
  assert (x = 0 \/ 0 < x)%N as [-> | Hx] by lia.
  - now rewrite pretty_N_go_0.
  - rewrite pretty_N_go_step by exact Hx. apply IH.
    + now apply N.div_lt.
    + cbn [Ref.comma_free]. rewrite Hs.
      unfold pretty_N_char. now repeat case_match.
Qed.

Lemma comma_free_pretty_N (x : N) : Ref.comma_free (pretty x) = true.
Proof.
  unfold pretty, pretty_N. case_decide; [reflexivity |].
  now apply comma_free_pretty_N_go.
Qed.

Lemma comma_free_pretty_Z (z : Z) : Ref.comma_free (pretty z) = true.
Proof.
  destruct z as [| p | p]; unfold pretty, pretty_Z; [reflexivity | |].
  - apply comma_free_pretty_N.
  - cbn [String.append Ref.comma_free]. apply comma_free_pretty_N.
Qed.

Lemma comma_split (s1 s2 t1 t2 : string) :
  Ref.comma_free s1 = true -> Ref.comma_free s2 = true ->
  s1 +:+ "," +:+ t1 = s2 +:+ "," +:+ t2 -> s1 = s2 /\ t1 = t2.
Proof.
  revert s2. induction s1 as [| c s1 IH]; intros [| d s2] H1 H2 E; simpl in *.
  - injection E as E. auto.
  - injection E as <- _. simpl in H2. discriminate.
  - injection E as -> _. simpl in H1. discriminate.
  - injection E as -> E.
    apply andb_prop in H1 as [_ H1]. apply andb_prop in H2 as [_ H2].
    destruct (IH s2 H1 H2 E) as [-> ->]. auto.
Qed.

Lemma key_inj (c d : Z * Z) : Ref.key c = Ref.key d -> c = d.
Proof.
  destruct c as [cx cy], d as [dx dy]. unfold Ref.key. cbn [fst snd]. intros E.
  apply comma_split in E as [Ex Ey]; try apply comma_free_pretty_Z.
  apply (inj pretty) in Ex, Ey. now subst.
Qed.

Lemma cell_key_quantize (p : position) :
  Density.cell_key p = Ref.key (Ref.quantize p).
Proof. reflexivity. Qed.

(** ** Counting vertices per cell *)

Section Occurrences.

Context `{EqDecision A}.

Lemma occ_nil (x : A) : Ref.occ x [] = 0%nat.
Proof. reflexivity. Qed.

Lemma occ_cons (x y : A) (l : list A) :
  Ref.occ x (y :: l) = ((if decide (y = x) then 1 else 0) + Ref.occ x l)%nat.
Proof.
  unfold Ref.occ. rewrite filter_cons. now destruct (decide (y = x)).
Qed.

Lemma occ_app (x : A) (l k : list A) :
  Ref.occ x (l ++ k) = (Ref.occ x l + Ref.occ x k)%nat.
Proof. unfold Ref.occ. now rewrite filter_app, length_app. Qed.

Lemma occ_pos (x : A) (l : list A) : Ref.occ x l ≠ 0%nat <-> x ∈ l.
Proof.
  induction l as [| y l IH].
  - rewrite occ_nil. split; [congruence | intros H; inversion H].
  - rewrite occ_cons, elem_of_cons. destruct (decide (y = x)) as [-> | Hne].
    + split; [auto | intros _; cbn; lia].
    + cbn. rewrite IH. split; [auto | intros [-> | H]; [contradiction | exact H]].
Qed.

End Occurrences.

Lemma occ_map_inj {A B} `{EqDecision A} `{EqDecision B} (f : A -> B)
    (x : A) (l : list A) :
  (forall a b, f a = f b -> a = b) ->
  Ref.occ (f x) (map f l) = Ref.occ x l.
Proof.
  intros Hf. induction l as [| y l IH]; [reflexivity |].
  cbn [map]. rewrite !occ_cons, IH.
  destruct (decide (f y = f x)) as [E | N], (decide (y = x)) as [E' | N'];
    try reflexivity.
  - apply Hf in E. contradiction.
  - subst. contradiction.
Qed.

Lemma elem_of_map_inj {A B} (f : A -> B) (x : A) (l : list A) :
  (forall a b, f a = f b -> a = b) -> f x ∈ map f l <-> x ∈ l.
Proof.
  intros Hf. induction l as [| y l IH]; cbn [map].
  - split; intros H; inversion H.
  - rewrite !elem_of_cons, IH. split; intros [E | H]; auto.
    left. now subst.
Qed.

Lemma remove_dups_map_inj {A B} `{EqDecision A} `{EqDecision B} (f : A -> B)
    (l : list A) :
  (forall a b, f a = f b -> a = b) ->
  remove_dups (map f l) = map f (remove_dups l).
Proof.
  intros Hf. induction l as [| y l IH]; [reflexivity |].
  cbn [map remove_dups].
  destruct (decide_rel elem_of (f y) (map f l)) as [E | N],
           (decide_rel elem_of y l) as [E' | N']; cbn [map]; rewrite ?IH; auto.
  - apply elem_of_map_inj in E; [contradiction | exact Hf].
  - exfalso. apply N. now apply elem_of_map_inj.
Qed.

Lemma length_filter_map {A B} (f : A -> B) (P : B -> Prop)
    `{forall b, Decision (P b)} (l : list A) :
  length (filter P (map f l)) = length (filter (fun a => P (f a)) l).
Proof.
  induction l as [| y l IH]; [reflexivity |].
  cbn [map]. rewrite !filter_cons.
  destruct (decide (P (f y))); cbn [length]; now rewrite IH.
Qed.

Lemma length_filter_ext {A} (P Q : A -> Prop) `{forall a, Decision (P a)}
    `{forall a, Decision (Q a)} (l : list A) :
  (forall a, P a <-> Q a) -> length (filter P l) = length (filter Q l).
Proof.
  intros HPQ. induction l as [| y l IH]; [reflexivity |].
  rewrite !filter_cons.
  destruct (decide (P y)) as [p | np], (decide (Q y)) as [q | nq];
    cbn [length]; rewrite ?IH; auto.
  - apply HPQ in p. contradiction.
  - apply HPQ in q. contradiction.
Qed.

(** ** The frequency table *)

Lemma tally_snoc (pts : list string) (k : string) :
  Density.tally (pts ++ [k]) = Density.bump (Density.tally pts) k.
Proof. unfold Density.tally. now rewrite fold_left_app. Qed.

Lemma tally_lookup (pts : list string) (k : string) :
  Density.tally pts !! k = Ref.positive_count (Ref.occ k pts).
Proof.
  induction pts as [| x pts IH] using rev_ind; [reflexivity |].
  rewrite tally_snoc, occ_app, occ_cons, occ_nil. unfold Density.bump.
  destruct (decide (x = k)) as [-> | Hne].
  - rewrite lookup_insert_eq, IH.
    destruct (Ref.occ k pts) as [| n]; cbn; [reflexivity |].
    f_equal; lia.
  - rewrite lookup_insert_ne by exact Hne. rewrite IH. cbn.
    now rewrite Nat.add_0_r.
Qed.

Lemma tally_entries (pts : list string) :
  map_to_list (Density.tally pts)
  ≡ₚ map (fun k => (k, Ref.occ k pts)) (remove_dups pts).
Proof.
  apply NoDup_Permutation.
  - apply NoDup_map_to_list.
  - pose proof (NoDup_remove_dups pts) as Hnd.
    induction Hnd as [| x l Hx Hl IH]; cbn [map]; constructor; auto.
    intros Hin. apply Hx.
    clear -Hin. induction l as [| y l IH]; cbn [map] in Hin.
    + inversion Hin.
    + apply elem_of_cons in Hin as [[= ->] | Hin];
        [apply list_elem_of_here | apply list_elem_of_further, IH, Hin].
  - intros [k v]. rewrite elem_of_map_to_list, tally_lookup. split.
    + intros H.
      assert (Hv : v = Ref.occ k pts)
        by (destruct (Ref.occ k pts); cbn in H; congruence).
      assert (Hk : k ∈ remove_dups pts).
      { apply elem_of_remove_dups. apply occ_pos.
        destruct (Ref.occ k pts); cbn in H; congruence. }
      subst v. clear H. revert Hk. generalize (remove_dups pts) as l.
      induction l as [| y l IH]; intros Hk; [inversion Hk |].
      cbn [map]. apply elem_of_cons in Hk as [-> | Hk];
        [apply list_elem_of_here | apply list_elem_of_further, IH, Hk].
    + intros H.
      assert (Hk : k ∈ remove_dups pts /\ v = Ref.occ k pts).
      { revert H. generalize (remove_dups pts) as l.
        induction l as [| y l IH]; cbn [map]; intros H; [inversion H |].
        apply elem_of_cons in H as [[= -> ->] | H].
        - split; [apply list_elem_of_here | reflexivity].
        - destruct (IH H) as [? ?]. split; [now apply list_elem_of_further | auto]. }
      destruct Hk as [Hk ->]. rewrite elem_of_remove_dups in Hk.
      rewrite <- occ_pos in Hk.
      destruct (Ref.occ k pts); [congruence | reflexivity].
Qed.

Lemma intersections_tally (pts : list string) :
  Density.intersections (Density.tally pts) =
  length (filter (fun k => (3 <= Ref.occ k pts)%nat) (remove_dups pts)).
Proof.
  unfold Density.intersections.
  rewrite (Permutation_length
             (filter_Permutation _ _ _ (Permutation_map snd (tally_entries pts)))).
  rewrite map_map. cbn [snd].
  apply (length_filter_map (fun k => Ref.occ k pts) (fun v => (3 <= v)%nat)).
Qed.

(** ** Claim about the intersection density *)

Lemma feature_keys_vertices (f : feature) :
  Density.feature_keys f = map Density.cell_key (Ref.feature_vertices f).
Proof.
  unfold Density.feature_keys, Ref.feature_vertices.
  destruct (geometry f) as [[c | cs | ls | rings | polys] |]; try reflexivity.
  symmetry. apply concat_map.
Qed.

Lemma road_keys_vertices (fs : list feature) :
  concat (map Density.feature_keys fs)
  = map Density.cell_key (Ref.road_vertices fs).
Proof.
  unfold Ref.road_vertices. induction fs as [| f fs IH]; [reflexivity |].
  cbn [map concat]. now rewrite map_app, IH, feature_keys_vertices.
Qed.

Lemma intersections_busy_cells (vs : list position) :
  Density.intersections (Density.tally (map Density.cell_key vs))
  = length (Ref.busy_cells vs).
Proof.
  rewrite intersections_tally. unfold Ref.busy_cells.
  assert (E : map Density.cell_key vs = map Ref.key (map Ref.quantize vs))
    by (rewrite map_map; reflexivity).
  rewrite E. set (cells := map Ref.quantize vs).
  rewrite (remove_dups_map_inj Ref.key cells key_inj).
  rewrite (length_filter_map Ref.key
             (fun k => (3 <= Ref.occ k (map Ref.key cells))%nat)).
  apply length_filter_ext. intros c.
  now rewrite (occ_map_inj Ref.key c cells key_inj).
Qed.

(** C6: on a road collection and an area other than 0, the result is the
    number of grid cells (coordinates times 10,000, rounded) reached by at
    least three vertices of the LineStrings and MultiLineStrings, divided
    by the area; it is 0 for the area 0.  With exactly one such cell and a
    positive area [A] the result is [1 / A]. *)
Theorem intersection_density_counts_cells (fs : list feature) (areaKm2 : Q) :
  exists q,
    Density.intersectionDensityPerKm2 (Some {| features := Some fs |}) areaKm2
      = inr q /\
    (areaKm2 == 0 -> q == 0) /\
    (~ areaKm2 == 0 ->
       q == Density.count_of (length (Ref.busy_cells (Ref.road_vertices fs)))
            / areaKm2) /\
    (0 < areaKm2 ->
       (exists c, Ref.busy_cells (Ref.road_vertices fs) = [c]) ->
       q == 1 / areaKm2).
Proof.
  unfold Density.intersectionDensityPerKm2. cbn [features].
  destruct (Qeq_bool areaKm2 0) eqn:Ea.
  - apply Qeq_bool_iff in Ea. exists 0. split; [reflexivity |].
    split; [reflexivity |]. split; [contradiction |].
    intros Hpos. rewrite Ea in Hpos. discriminate.
  - assert (Hne : ~ areaKm2 == 0).
    { intros H. apply Qeq_bool_iff in H. congruence. }
    rewrite road_keys_vertices.
    set (vs := Ref.road_vertices fs).
    assert (Hmain : forall q,
      q == Density.count_of (length (Ref.busy_cells vs)) / areaKm2 ->
      (areaKm2 == 0 -> q == 0) /\
      (~ areaKm2 == 0 ->
         q == Density.count_of (length (Ref.busy_cells vs)) / areaKm2) /\
      (0 < areaKm2 -> (exists c, Ref.busy_cells vs = [c]) -> q == 1 / areaKm2)).
    { intros q Hq. split; [contradiction |]. split; [auto |].
      intros _ [c Hc]. rewrite Hq, Hc. reflexivity. }
    destruct (length (map Density.cell_key vs) =? 0)%nat eqn:El.
    + exists 0. split; [reflexivity |]. apply Hmain.
      apply Nat.eqb_eq in El. rewrite length_map in El.
      destruct vs; [| discriminate]. cbn. unfold Qdiv. now rewrite Qmult_0_l.
    + eexists. split; [reflexivity |]. apply Hmain.
      now rewrite intersections_busy_cells.
Qed.

Lemma intersection_density_defined (fs : list feature) (areaKm2 : Q) :
  exists q,
    Density.intersectionDensityPerKm2 (Some {| features := Some fs |}) areaKm2
      = inr q.
Proof.
  unfold Density.intersectionDensityPerKm2. cbn [features].
  destruct (Qeq_bool areaKm2 0); [now eexists |].
  destruct (length _ =? 0)%nat; now eexists.
Qed.

(** ** Claim about the amenity densities *)

Lemma includes_node (t : string) :
  Convert.includes ["node"] t = String.eqb t "node".
Proof. cbn. now rewrite orb_false_r. Qed.

Section AmenityFacts.

Variable turf_area : list (list (jsval * jsval)) -> Q.
Variable turf_length : turf_line -> res Q.

Lemma amenity_is_node name el f :
  name ≠ "" ->
  Convert.convert_element ["node"] el = Some f ->
  amenity_is name f = inr (Ref.is_amenity_node name el).
Proof.
  intros Hname. unfold Convert.convert_element.
  rewrite includes_node.
  destruct (String.eqb (el_type el) "node") eqn:Et; [| discriminate].
  cbn [negb]. intros [= <-].
  unfold amenity_is, Ref.is_amenity_node, Ref.amenity_tag. rewrite Et.
  cbn [properties andb]. unfold Convert.get.
  rewrite props_of_lookup_ne by discriminate.
  assert (Hempty : String.eqb (toLowerCase "") name = false).
  { cbn. destruct name; [congruence | reflexivity]. }
  destruct (default ∅ (el_tags el) !! "amenity") as [s |]; cbn.
  - destruct (String.eqb s "") eqn:Es; cbn; [| reflexivity].
    apply String.eqb_eq in Es. subst s. reflexivity.
  - f_equal. exact Hempty.
Qed.

Lemma convert_non_node el :
  String.eqb (el_type el) "node" = false ->
  Convert.convert_element ["node"] el = None.
Proof.
  intros Et. unfold Convert.convert_element. now rewrite includes_node, Et.
Qed.

Lemma filter_amenity_count name (els : list element) :
  name ≠ "" ->
  exists l,
    filter_res (amenity_is name) (omap (Convert.convert_element ["node"]) els)
      = inr l /\
    length l = Ref.count_amenity name els.
Proof.
  intros Hname. unfold Ref.count_amenity.
  induction els as [| el els (l & Hl & Hlen)]; [now exists [] |].
  cbn [List.filter].
  change (omap (Convert.convert_element ["node"]) (el :: els))
    with (match Convert.convert_element ["node"] el with
          | Some f => f :: omap (Convert.convert_element ["node"]) els
          | None => omap (Convert.convert_element ["node"]) els
          end).
  destruct (Convert.convert_element ["node"] el) as [f |] eqn:Ec.
  - cbn [filter_res]. rewrite (amenity_is_node name el f Hname Ec).
    cbn [res_bind]. rewrite Hl. cbn [res_bind].
    destruct (Ref.is_amenity_node name el); eexists; (split; [reflexivity |]);
      cbn [length]; now rewrite Hlen.
  - assert (Hn : Ref.is_amenity_node name el = false).
    { unfold Ref.is_amenity_node.
      destruct (String.eqb (el_type el) "node") eqn:Et; [| reflexivity].
      exfalso. revert Ec. unfold Convert.convert_element.
      rewrite includes_node, Et. discriminate. }
    rewrite Hn. now exists l.
Qed.

Lemma compute_metrics_amenities b roadsOs buildOs amen m :
  compute_metrics turf_area turf_length b roadsOs buildOs (Some amen) = inr m ->
  let areaKm2 := turf_area (bboxPolygon b) / 1000000 in
  let els := default [] (elements amen) in
  hospitals_per_km2 m = Ref.amenity_density "hospital" els areaKm2 /\
  schools_per_km2 m = Ref.amenity_density "school" els areaKm2.
Proof.
  intros H areaKm2 els. revert H.
  unfold compute_metrics.
  destruct (Convert.osmToGeoJSON roadsOs ["way"]) as [e | roadsGeo];
    [discriminate |]. cbn [res_bind].
  destruct (Convert.osmToGeoJSON buildOs ["way"]) as [e | buildGeo];
    [discriminate |]. cbn [res_bind].
  cbn [Convert.osmToGeoJSON res_bind features default].
  fold els. fold areaKm2.
  destruct (lengthKm turf_length (Some roadsGeo)) as [e | road_km];
    [discriminate |]. cbn [res_bind].
  destruct (Density.intersectionDensityPerKm2 (Some roadsGeo) areaKm2)
    as [e | intxn]; [discriminate |]. cbn [res_bind].
  destruct (filter_amenity_count "hospital" els ltac:(discriminate))
    as (hosp & Hh & Hhl).
  destruct (filter_amenity_count "school" els ltac:(discriminate))
    as (scho & Hs & Hsl).
  unfold id. rewrite Hh. cbn [res_bind]. rewrite Hs. cbn [res_bind].
  intros [= <-]. cbn [hospitals_per_km2 schools_per_km2].
  unfold Ref.amenity_density, Density.pointDensityPerKm2.
  cbn [features default]. rewrite Hhl, Hsl. split; reflexivity.
Qed.

(** C10: the two amenity densities of the returned metrics are computed
    from the number of payload nodes whose [amenity] tag is, up to letter
    case, [hospital] respectively [school]; an element whose [amenity] tag
    is absent or is neither of the two (a clinic, a university, a station,
    a bus stop) can be taken out of the payload without changing either
    density. *)
Theorem amenity_densities_count_hospitals_and_schools
    b roadsOs buildOs (pre post : list element) (el : element) m m' :
  compute_metrics turf_area turf_length b roadsOs buildOs
    (Some {| elements := Some (pre ++ el :: post) |}) = inr m ->
  compute_metrics turf_area turf_length b roadsOs buildOs
    (Some {| elements := Some (pre ++ post) |}) = inr m' ->
  let areaKm2 := turf_area (bboxPolygon b) / 1000000 in
  (hospitals_per_km2 m
     = Ref.amenity_density "hospital" (pre ++ el :: post) areaKm2 /\
   schools_per_km2 m
     = Ref.amenity_density "school" (pre ++ el :: post) areaKm2) /\
  (Ref.is_amenity_node "hospital" el = false ->
   hospitals_per_km2 m = hospitals_per_km2 m') /\
  (Ref.is_amenity_node "school" el = false ->
   schools_per_km2 m = schools_per_km2 m').
Proof.
  intros Hm Hm' areaKm2.
  apply compute_metrics_amenities in Hm as [Hh Hs].
  apply compute_metrics_amenities in Hm' as [Hh' Hs'].
  cbn [elements default from_option] in *. unfold id in *.
  fold areaKm2 in Hh, Hs, Hh', Hs'.
  split; [split; assumption |].
  split; intros Hn.
  - rewrite Hh, Hh'. unfold Ref.amenity_density, Ref.count_amenity.
    rewrite !List.filter_app. cbn [List.filter]. now rewrite Hn.
  - rewrite Hs, Hs'. unfold Ref.amenity_density, Ref.count_amenity.
    rewrite !List.filter_app. cbn [List.filter]. now rewrite Hn.
Qed.

End AmenityFacts.

Lemma amenity_densities_count_hospitals_and_schools_witness :
  match compute_metrics Sample.area Sample.len Sample.quad
          (Some Sample.roads) (Some Sample.buildings) (Some Sample.amenities),
        compute_metrics Sample.area Sample.len Sample.quad
          (Some Sample.roads) (Some Sample.buildings)
          (Some Sample.amenities_without_clinic)
  with
  | inr m, inr m' =>
      let areaKm2 := Sample.area (bboxPolygon Sample.quad) / 1000000 in
      (hospitals_per_km2 m
         = Ref.amenity_density "hospital"
             ([Sample.hospital_node; Sample.school_node]
              ++ Sample.clinic_node :: [Sample.bus_stop_node]) areaKm2 /\
       schools_per_km2 m
         = Ref.amenity_density "school"
             ([Sample.hospital_node; Sample.school_node]
              ++ Sample.clinic_node :: [Sample.bus_stop_node]) areaKm2) /\
      (Ref.is_amenity_node "hospital" Sample.clinic_node = false ->
       hospitals_per_km2 m = hospitals_per_km2 m') /\
      (Ref.is_amenity_node "school" Sample.clinic_node = false ->
       schools_per_km2 m = schools_per_km2 m')
  | _, _ => False
  end.
Proof.
  destruct (compute_metrics Sample.area Sample.len Sample.quad
              (Some Sample.roads) (Some Sample.buildings)
              (Some Sample.amenities)) as [e | m] eqn:E;
    [vm_compute in E; discriminate |].
  destruct (compute_metrics Sample.area Sample.len Sample.quad
              (Some Sample.roads) (Some Sample.buildings)
              (Some Sample.amenities_without_clinic)) as [e | m'] eqn:E';
    [vm_compute in E'; discriminate |].
  exact (amenity_densities_count_hospitals_and_schools Sample.area Sample.len
           Sample.quad (Some Sample.roads) (Some Sample.buildings)
           [Sample.hospital_node; Sample.school_node] [Sample.bus_stop_node]
           Sample.clinic_node m m' E E').
Defined.

(** ** Further properties of the fetch *)

Lemma count_posts_app (l k : list event) :
  Ref.count_posts (l ++ k) = (Ref.count_posts l + Ref.count_posts k)%nat.
Proof. unfold Ref.count_posts. now rewrite filter_app, length_app. Qed.

Lemma count_posts_retry_log query pauseMs k :
  Ref.count_posts (Ref.retry_log query pauseMs k) = S k.
Proof.
  induction k as [| k IH]; [reflexivity |].
  rewrite retry_log_S. unfold Ref.count_posts in *.
  rewrite !filter_cons. cbn [Ref.is_post].
  rewrite decide_True by reflexivity. rewrite decide_False by discriminate.
  cbn [length]. now rewrite IH.
Qed.

Section FetchShape.

Variable axios_post : string -> string -> nat -> res osmJson.

Local Abbreviation answer := (axios_post overpass_url).

Lemma overpass_loop_shape query retries pauseMs :
  forall (fuel : nat) (attempt : Z) (log : list event) r log',
    (attempt <= retries)%Z ->
    (Z.to_nat (retries - attempt) < fuel)%nat ->
    overpass_loop axios_post query retries pauseMs fuel attempt log = (r, log') ->
    exists k : nat,
      (attempt + Z.of_nat k <= retries)%Z /\
      log' = log ++ Ref.retry_log query pauseMs k /\
      (forall i, (i < k)%nat ->
         exists e, answer query (posts_of query log + i)%nat = inl e) /\
      ((exists d, r = inr (Some d) /\
                  answer query (posts_of query log + k)%nat = inr d) \/
       (exists e, r = inl e /\ (attempt + Z.of_nat k = retries)%Z /\
                  answer query (posts_of query log + k)%nat = inl e)).
Proof.
  induction fuel as [| fuel IH]; intros attempt log r log' Ha Hf; [lia |].
  cbn [overpass_loop].
  assert (Hle : (attempt <=? retries)%Z = true) by (apply Z.leb_le; lia).
  rewrite Hle. unfold bind at 1. unfold post at 1.
  destruct (answer query (posts_of query log)) as [e | d] eqn:Hans.
  - destruct (attempt <? retries)%Z eqn:Hlt.
    + apply Z.ltb_lt in Hlt. unfold bind, emit. intros H.
      apply IH in H as (k & Hk & -> & Hfail & Hres); [| lia | lia].
      rewrite posts_of_sleep, posts_of_post in Hfail, Hres.
      exists (S k). split; [lia |]. split.
      { rewrite retry_log_S, <- !app_assoc. reflexivity. }
      split.
      { intros [| i] Hi.
        - exists e. now rewrite Nat.add_0_r.
        - destruct (Hfail i ltac:(lia)) as [e' He'].
          exists e'. rewrite <- He'. f_equal. lia. }
      replace (posts_of query log + S k)%nat
        with (S (posts_of query log) + k)%nat by lia.
      destruct Hres as [(d & -> & Hd) | (e' & -> & Hk' & He')].
      * left. eauto.
      * right. exists e'. split; [reflexivity |]. split; [lia | assumption].
    + apply Z.ltb_ge in Hlt. intros [= <- <-].
      exists 0%nat. split; [lia |]. split; [reflexivity |].
      split; [intros i Hi; lia |].
      right. exists e. rewrite Nat.add_0_r. split; [reflexivity |].
      split; [lia | assumption].
  - intros [= <- <-]. exists 0%nat. split; [lia |]. split; [reflexivity |].
    split; [intros i Hi; lia |].
    left. exists d. rewrite Nat.add_0_r. auto.
Qed.

(** X1: with a retry count [r >= 0] a fetch makes [k + 1] posts for some
    [k <= r], with a pause after each of the first [k]; those [k] posts
    failed, and the fetch ends with the payload of the last post or, only
    when [k = r], with the error of the last post.  It never returns
    [undefined]. *)
Theorem overpass_bounded_attempts (query : string) (retries pauseMs : Z)
    (log : list event) r log' :
  (0 <= retries)%Z ->
  overpass axios_post query retries pauseMs log = (r, log') ->
  exists k : nat,
    (Z.of_nat k <= retries)%Z /\
    log' = log ++ Ref.retry_log query pauseMs k /\
    Ref.count_posts (Ref.retry_log query pauseMs k) = S k /\
    (forall i, (i < k)%nat ->
       exists e, answer query (posts_of query log + i)%nat = inl e) /\
    ((exists d, r = inr (Some d) /\
                answer query (posts_of query log + k)%nat = inr d) \/
     (exists e, r = inl e /\ Z.of_nat k = retries /\
                answer query (posts_of query log + k)%nat = inl e)).
Proof.
  intros Hr H. unfold overpass in H.
  apply overpass_loop_shape in H as (k & Hk & Hlog & Hfail & Hres); [| lia | lia].
  exists k. split; [lia |]. split; [exact Hlog |].
  split; [apply count_posts_retry_log |]. split; [exact Hfail |].
  destruct Hres as [H | (e & He & Hk' & Ha)]; [left; exact H |].
  right. exists e. split; [exact He |]. split; [lia | exact Ha].
Qed.

End FetchShape.

Lemma overpass_bounded_attempts_witness :
  exists k : nat,
    (Z.of_nat k <= 2)%Z /\
    snd (overpass (Sample.flaky 2) "q" 2 1500 [])
      = [] ++ Ref.retry_log "q" 1500 k /\
    Ref.count_posts (Ref.retry_log "q" 1500 k) = S k /\
    (forall i, (i < k)%nat ->
       exists e, Sample.flaky 2 overpass_url "q" (posts_of "q" [] + i)%nat = inl e) /\
    ((exists d, fst (overpass (Sample.flaky 2) "q" 2 1500 []) = inr (Some d) /\
                Sample.flaky 2 overpass_url "q" (posts_of "q" [] + k)%nat = inr d) \/
     (exists e, fst (overpass (Sample.flaky 2) "q" 2 1500 []) = inl e /\
                Z.of_nat k = 2%Z /\
                Sample.flaky 2 overpass_url "q" (posts_of "q" [] + k)%nat = inl e)).
Proof.
  apply (overpass_bounded_attempts (Sample.flaky 2) "q" 2 1500 []).
  - lia.
  - vm_compute. reflexivity.
Defined.

(** ** The requests of a whole call *)

Section CallShape.

Variable axios_post : string -> string -> nat -> res osmJson.
Variable settle_order : list nat.
Variable schedule : list nat.
Variable turf_area : list (list (jsval * jsval)) -> jsnum.
Variable turf_length : turf_line -> res Q.
Variable toStr : jsval -> string.
Variable areaReport : string.

Local Abbreviation analyze :=
  (analyzeBBox axios_post settle_order schedule turf_area turf_length toStr areaReport).
Local Abbreviation fetch := (fetch_all axios_post settle_order schedule toStr).
Local Abbreviation settled := (settled_fetches axios_post schedule toStr).

Lemma overpass_log_shape query retries pauseMs log r log' :
  (0 <= retries)%Z ->
  overpass axios_post query retries pauseMs log = (r, log') ->
  exists k : nat,
    (Z.of_nat k <= retries)%Z /\ log' = log ++ Ref.retry_log query pauseMs k.
Proof.
  intros Hr H. unfold overpass in H.
  apply overpass_loop_shape in H as (k & Hk & Hlog & _); [| lia | lia].
  exists k. split; [lia | exact Hlog].
Qed.

Lemma settled_log_shape b retries log rs log1 :
  (0 <= retries)%Z ->
  settled b retries log = (rs, log1) ->
  exists k1 k2 k3 : nat,
    (Z.of_nat k1 <= retries)%Z /\ (Z.of_nat k2 <= retries)%Z /\
    (Z.of_nat k3 <= retries)%Z /\
    log1 = log ++ interleave schedule
                    [Ref.retry_log (Q_ROADS toStr b) default_pauseMs k1;
                     Ref.retry_log (Q_BUILD toStr b) default_pauseMs k2;
                     Ref.retry_log (Q_AMEN toStr b) default_pauseMs k3].
Proof.
  intros Hr Hs.
  destruct (settled_spec axios_post schedule toStr b retries log)
    as (r1 & t1 & r2 & t2 & r3 & t3 & E1 & E2 & E3 & E).
  rewrite E in Hs. injection Hs as _ <-.
  apply overpass_log_shape in E1 as (k1 & H1 & E1); [| exact Hr].
  apply overpass_log_shape in E2 as (k2 & H2 & E2); [| exact Hr].
  apply overpass_log_shape in E3 as (k3 & H3 & E3); [| exact Hr].
  apply app_inv_head in E1, E2, E3. subst t1 t2 t3.
  exists k1, k2, k3. repeat (split; [assumption |]). reflexivity.
Qed.

Lemma retry_log_head query pauseMs k :
  Ref.retry_log query pauseMs k
  = Post overpass_url query :: drop 1 (Ref.retry_log query pauseMs k).
Proof. destruct k; reflexivity. Qed.

Lemma count_posts_Permutation (l k : list event) :
  l ≡ₚ k -> Ref.count_posts l = Ref.count_posts k.
Proof. intros H. unfold Ref.count_posts. now rewrite H. Qed.

Lemma interleave_heads (t1 t2 t3 : list event) e1 e2 e3 :
  t1 = e1 :: drop 1 t1 -> t2 = e2 :: drop 1 t2 -> t3 = e3 :: drop 1 t3 ->
  exists rest,
    interleave schedule [t1; t2; t3] = e1 :: e2 :: e3 :: rest /\
    rest ≡ₚ drop 1 t1 ++ drop 1 t2 ++ drop 1 t3.
Proof.
  intros H1 H2 H3.
  exists (weave schedule [drop 1 t1; drop 1 t2; drop 1 t3]). split.
  - unfold interleave. cbn [map concat]. rewrite H1, H2, H3. reflexivity.
  - rewrite weave_Permutation. cbn [concat]. now rewrite app_nil_r.
Qed.

Lemma bind_snd_ok {A B} (m : M A) (k : A -> M B) log a log1 :
  m log = (inr a, log1) -> snd (bind m k log) = snd (k a log1).
Proof. intros H. unfold bind. now rewrite H. Qed.

Lemma after_fetch_snd b ai opts retries log :
  snd (bind (fetch b retries) (fun os =>
         let '(roadsOs, buildOs, amenOs) := os in
         bind (lift (compute_returned turf_area turf_length b roadsOs buildOs amenOs))
           (fun m =>
         bind (generateGeminiAnalysis areaReport ai m (model opts)) (fun a =>
         ret {| res_metrics := m; res_analysis := a |}))) log)
  = snd (fetch b retries log).
Proof.
  unfold bind at 1.
  destruct (fetch b retries log) as [[e | [[r1 r2] r3]] log1]; [reflexivity |].
  cbn [snd]. unfold bind, lift, generateGeminiAnalysis, ret.
  destruct (compute_returned turf_area turf_length b r1 r2 r3); reflexivity.
Qed.

(** X2: a call on an array of four entries with a retry count [r >= 0]
    performs, after at most a warning, the first posts of the road, the
    building and the amenity query, in that order and before any pause;
    what follows is an interleaving, chosen by the scheduler, of the
    retries of the three fetches, each a pause of 1500 ms and a post, at
    most [r] times per fetch; nothing else is performed: between 3 and
    [3 (r + 1)] requests in all, whether the call returns or throws. *)
Theorem call_requests_bounded b opts log :
  length b = 4%nat ->
  (0 <= overpassRetries opts)%Z ->
  exists (l0 : list event) (k1 k2 k3 : nat) (rest : list event),
    snd (analyze (JArr b) opts log) =
      log ++ l0 ++ interleave schedule
                     [Ref.retry_log (Q_ROADS toStr b) 1500 k1;
                      Ref.retry_log (Q_BUILD toStr b) 1500 k2;
                      Ref.retry_log (Q_AMEN toStr b) 1500 k3] /\
    interleave schedule
      [Ref.retry_log (Q_ROADS toStr b) 1500 k1;
       Ref.retry_log (Q_BUILD toStr b) 1500 k2;
       Ref.retry_log (Q_AMEN toStr b) 1500 k3]
    = Post overpass_url (Q_ROADS toStr b)
        :: Post overpass_url (Q_BUILD toStr b)
        :: Post overpass_url (Q_AMEN toStr b) :: rest /\
    rest ≡ₚ drop 1 (Ref.retry_log (Q_ROADS toStr b) 1500 k1)
            ++ drop 1 (Ref.retry_log (Q_BUILD toStr b) 1500 k2)
            ++ drop 1 (Ref.retry_log (Q_AMEN toStr b) 1500 k3) /\
    Ref.count_posts l0 = 0%nat /\
    (Z.of_nat k1 <= overpassRetries opts)%Z /\
    (Z.of_nat k2 <= overpassRetries opts)%Z /\
    (Z.of_nat k3 <= overpassRetries opts)%Z /\
    Ref.count_posts (snd (analyze (JArr b) opts log)) =
      (Ref.count_posts log + (k1 + k2 + k3 + 3))%nat.
Proof.
  intros Hb Hr. rewrite analyzeBBox_quad by exact Hb.
  destruct (prepare_ai_log opts log) as (ai & l0 & Hai & Hc).
  rewrite (bind_snd_ok _ _ _ _ _ Hai).
  rewrite after_fetch_snd, fetch_snd.
  destruct (settled b (overpassRetries opts) (log ++ l0)) as [rs log1] eqn:Es.
  pose proof (settled_log_shape _ _ _ _ _ Hr Es)
    as (k1 & k2 & k3 & H1 & H2 & H3 & Hlog).
  unfold default_pauseMs in Hlog.
  destruct (interleave_heads _ _ _ _ _ _
              (retry_log_head (Q_ROADS toStr b) 1500 k1)
              (retry_log_head (Q_BUILD toStr b) 1500 k2)
              (retry_log_head (Q_AMEN toStr b) 1500 k3)) as (rest & Hi & Hp).
  cbn [snd]. exists l0, k1, k2, k3, rest.
  split; [rewrite Hlog, <- !app_assoc; reflexivity |].
  split; [exact Hi |]. split; [exact Hp |].
  split; [exact Hc |]. repeat (split; [assumption |]).
  rewrite Hlog, !count_posts_app, Hc.
  rewrite (count_posts_Permutation _ _ (interleave_Permutation schedule _)).
  cbn [concat]. rewrite !count_posts_app, !count_posts_retry_log.
  cbn [Ref.count_posts filter length]. cbn. lia.
Qed.

Lemma quad_negative_retries_exact b opts log :
  length b = 4%nat ->
  (overpassRetries opts < 0)%Z ->
  analyze (JArr b) opts log =
    (inl (TypeError "Cannot read properties of undefined"),
     snd (prepare_ai opts log)).
Proof.
  intros Hb Hr. rewrite analyzeBBox_quad by exact Hb.
  destruct (prepare_ai_returns opts log) as [ai Hai].
  unfold bind at 1. rewrite Hai.
  unfold fetch_all, bind.
  rewrite (settled_run axios_post schedule toStr b (overpassRetries opts)
             (snd (prepare_ai opts log))
             (inr None) [] (inr None) [] (inr None) [])
    by (rewrite app_nil_r; now apply overpass_negative).
  assert (Hp : Promise_all settle_order (inr None) (inr None) (inr None)
               = inr (@None osmJson, @None osmJson, @None osmJson)).
  { unfold Promise_all. rewrite first_rejection_None; [reflexivity |].
    intros e He.
    repeat (apply elem_of_cons in He as [He | He]; [discriminate |]).
    now apply elem_of_nil in He. }
  unfold ret, lift. cbv beta iota zeta. rewrite Hp.
  rewrite interleave_nils, app_nil_r. reflexivity.
Qed.

(** X3: with a negative retry count a call on an array of four entries
    posts nothing: each fetch returns [undefined], and the call throws the
    TypeError of reading [elements] of [undefined]. *)
Theorem negative_retries_no_request b opts log :
  length b = 4%nat ->
  (overpassRetries opts < 0)%Z ->
  fst (analyze (JArr b) opts log)
    = inl (TypeError "Cannot read properties of undefined") /\
  Ref.count_posts (snd (analyze (JArr b) opts log)) = Ref.count_posts log.
Proof.
  intros Hb Hr. rewrite (quad_negative_retries_exact b opts log Hb Hr).
  split; [reflexivity |]. cbn [snd].
  destruct (prepare_ai_log opts log) as (ai & l0 & Hai & Hc).
  rewrite Hai. cbn [snd]. rewrite count_posts_app, Hc. lia.
Qed.

End CallShape.

Lemma call_requests_bounded_witness :
  exists (l0 : list event) (k1 k2 k3 : nat) (rest : list event),
    snd (analyzeBBox (Sample.flaky 1) Sample.order Sample.sched Sample.area_js
           Sample.len Sample.show Sample.report (JArr Sample.quad)
           default_options []) =
      [] ++ l0 ++ interleave Sample.sched
                    [Ref.retry_log (Q_ROADS Sample.show Sample.quad) 1500 k1;
                     Ref.retry_log (Q_BUILD Sample.show Sample.quad) 1500 k2;
                     Ref.retry_log (Q_AMEN Sample.show Sample.quad) 1500 k3] /\
    interleave Sample.sched
      [Ref.retry_log (Q_ROADS Sample.show Sample.quad) 1500 k1;
       Ref.retry_log (Q_BUILD Sample.show Sample.quad) 1500 k2;
       Ref.retry_log (Q_AMEN Sample.show Sample.quad) 1500 k3]
    = Post overpass_url (Q_ROADS Sample.show Sample.quad)
        :: Post overpass_url (Q_BUILD Sample.show Sample.quad)
        :: Post overpass_url (Q_AMEN Sample.show Sample.quad) :: rest /\
    rest ≡ₚ drop 1 (Ref.retry_log (Q_ROADS Sample.show Sample.quad) 1500 k1)
            ++ drop 1 (Ref.retry_log (Q_BUILD Sample.show Sample.quad) 1500 k2)
            ++ drop 1 (Ref.retry_log (Q_AMEN Sample.show Sample.quad) 1500 k3) /\
    Ref.count_posts l0 = 0%nat /\
    (Z.of_nat k1 <= overpassRetries default_options)%Z /\
    (Z.of_nat k2 <= overpassRetries default_options)%Z /\
    (Z.of_nat k3 <= overpassRetries default_options)%Z /\
    Ref.count_posts
      (snd (analyzeBBox (Sample.flaky 1) Sample.order Sample.sched
              Sample.area_js Sample.len Sample.show Sample.report
              (JArr Sample.quad) default_options [])) =
      (Ref.count_posts [] + (k1 + k2 + k3 + 3))%nat.
Proof.
  apply (call_requests_bounded (Sample.flaky 1) Sample.order Sample.sched
           Sample.area_js Sample.len Sample.show Sample.report Sample.quad
           default_options []).
  - reflexivity.
  - vm_compute. discriminate.
Defined.

Lemma negative_retries_no_request_witness :
  fst (analyzeBBox Sample.server Sample.order Sample.sched Sample.area_js Sample.len
         Sample.show Sample.report (JArr Sample.quad)
         {| apiKey := "k"; useGemini := true; overpassRetries := -1;
            model := "m" |} [])
    = inl (TypeError "Cannot read properties of undefined") /\
  Ref.count_posts
    (snd (analyzeBBox Sample.server Sample.order Sample.sched Sample.area_js Sample.len
            Sample.show Sample.report (JArr Sample.quad)
            {| apiKey := "k"; useGemini := true; overpassRetries := -1;
               model := "m" |} []))
    = Ref.count_posts [].
Proof.
  apply (negative_retries_no_request Sample.server Sample.order Sample.sched
           Sample.area_js Sample.len Sample.show Sample.report Sample.quad
           {| apiKey := "k"; useGemini := true; overpassRetries := -1;
              model := "m" |} []).
  - reflexivity.
  - reflexivity.
Defined.

(** ** Calls that return *)

Lemma Promise_all_fulfilled {A} (order : list nat) (a b c : A) :
  Promise_all order (inr a) (inr b) (inr c) = inr (a, b, c).
Proof.
  unfold Promise_all. rewrite first_rejection_None; [reflexivity |].
  intros e He.
  repeat (apply elem_of_cons in He as [He | He]; [discriminate |]).
  now apply elem_of_nil in He.
Qed.

Section Returning.

Variable axios_post : string -> string -> nat -> res osmJson.
Variable settle_order : list nat.
Variable schedule : list nat.
Variable turf_area : list (list (jsval * jsval)) -> jsnum.
Variable turf_length : turf_line -> res Q.
Variable toStr : jsval -> string.
Variable areaReport : string.

Local Abbreviation analyze :=
  (analyzeBBox axios_post settle_order schedule turf_area turf_length toStr areaReport).

Hypothesis turf_total : forall l, exists v, turf_length l = inr v.

Lemma ring_lengths_total polygons total :
  exists v, ring_lengths turf_length polygons total = inr v.
Proof.
  revert total. induction polygons as [| ring rest IH]; intros total; cbn.
  - now eexists.
  - destruct (turf_total (RingLine (head ring))) as [l ->]. cbn. apply IH.
Qed.

Lemma add_feature_length_total total f :
  exists v, add_feature_length turf_length total f = inr v.
Proof.
  unfold add_feature_length.
  destruct (geometry f) as [[c | cs | ls | rings | polys] |];
    try (now eexists); try apply ring_lengths_total.
  - destruct (turf_total (FeatureLine (LineString cs))) as [l ->]. now eexists.
  - destruct (turf_total (FeatureLine (MultiLineString ls))) as [l ->]. now eexists.
Qed.

Lemma length_loop_total fs total :
  exists v, length_loop turf_length fs total = inr v.
Proof.
  revert total. induction fs as [| f rest IH]; intros total; cbn.
  - now eexists.
  - destruct (add_feature_length_total total f) as [t ->]. cbn. apply IH.
Qed.

Lemma lengthKm_total fc : exists v, lengthKm turf_length fc = inr v.
Proof.
  unfold lengthKm. destruct fc as [[[[| f fs] |]] |]; try (now eexists).
  apply length_loop_total.
Qed.

Lemma jsnum_intersection_density_defined fs (x : jsnum) :
  exists q,
    JsNum.intersectionDensityPerKm2 (Some {| features := Some fs |}) x = inr q.
Proof.
  unfold JsNum.intersectionDensityPerKm2. cbn [features].
  destruct (JsNum.is_zero x); [now eexists |].
  destruct (length _ =? 0)%nat; now eexists.
Qed.

Lemma compute_returned_total b (roads builds amen : osmJson) :
  exists m,
    compute_returned turf_area turf_length b
      (Some roads) (Some builds) (Some amen) = inr m.
Proof.
  unfold compute_returned. cbn [Convert.osmToGeoJSON res_bind].
  set (rels := default [] (elements roads)).
  set (bels := default [] (elements builds)).
  set (els := default [] (elements amen)).
  destruct (lengthKm_total (Some {| features :=
              Some (omap (Convert.convert_element ["way"]) rels) |}))
    as [road_km ->].
  cbn [res_bind].
  destruct (jsnum_intersection_density_defined
              (omap (Convert.convert_element ["way"]) rels)
              (JsNum.div (turf_area (bboxPolygon b)) (Some 1000000)))
    as [q ->].
  cbn [res_bind features default from_option]. unfold id.
  destruct (filter_amenity_count "hospital" els ltac:(discriminate))
    as (hosp & -> & _).
  destruct (filter_amenity_count "school" els ltac:(discriminate))
    as (scho & -> & _).
  cbn [res_bind]. now eexists.
Qed.

Lemma posts_of_no_posts query (log l0 : list event) :
  Ref.count_posts l0 = 0%nat -> posts_of query (log ++ l0) = posts_of query log.
Proof.
  intros H. unfold posts_of. rewrite filter_app, length_app.
  enough (E : filter (fun ev => ev = Post overpass_url query) l0 = [])
    by (rewrite E; cbn; lia).
  induction l0 as [| ev l0 IH]; [reflexivity |].
  unfold Ref.count_posts in H. rewrite filter_cons in H.
  rewrite filter_cons. destruct ev as [u q | ms | msg].
  - cbn [Ref.is_post] in H. rewrite decide_True in H by reflexivity.
    discriminate.
  - rewrite decide_False by discriminate. apply IH.
    cbn [Ref.is_post] in H. now rewrite decide_False in H by discriminate.
  - rewrite decide_False by discriminate. apply IH.
    cbn [Ref.is_post] in H. now rewrite decide_False in H by discriminate.
Qed.

(** X4: on a server that answers every post and with a geometry library
    that does not throw, every call on an array of four entries with a
    retry count [r >= 0] returns: it posts each of the three queries once,
    and its metrics are those computed from the three payloads with which
    the server answered these posts. *)
Theorem responsive_call_returns b opts log :
  (forall q n, exists d, axios_post overpass_url q n = inr d) ->
  length b = 4%nat ->
  (0 <= overpassRetries opts)%Z ->
  exists r l0 roads builds amen,
    analyze (JArr b) opts log =
      (inr r, log ++ l0 ++ [Post overpass_url (Q_ROADS toStr b);
                            Post overpass_url (Q_BUILD toStr b);
                            Post overpass_url (Q_AMEN toStr b)]) /\
    Ref.count_posts l0 = 0%nat /\
    axios_post overpass_url (Q_ROADS toStr b)
      (posts_of (Q_ROADS toStr b) log) = inr roads /\
    axios_post overpass_url (Q_BUILD toStr b)
      (posts_of (Q_BUILD toStr b) log) = inr builds /\
    axios_post overpass_url (Q_AMEN toStr b)
      (posts_of (Q_AMEN toStr b) log) = inr amen /\
    compute_returned turf_area turf_length b
      (Some roads) (Some builds) (Some amen) = inr (res_metrics r) /\
    res_analysis r = areaReport.
Proof.
  intros Hserver Hb Hr. rewrite analyzeBBox_quad by exact Hb.
  destruct (prepare_ai_log opts log) as (ai & l0 & Hai & Hc).
  unfold bind at 1. rewrite Hai.
  assert (Hfetch : forall q, exists d,
    axios_post overpass_url q (posts_of q log) = inr d /\
    overpass axios_post q (overpassRetries opts) default_pauseMs (log ++ l0)
      = (inr (Some d), (log ++ l0) ++ [Post overpass_url q])).
  { intros q. destruct (Hserver q (posts_of q log)) as [d Hd].
    exists d. split; [exact Hd |]. unfold overpass.
    apply (overpass_loop_succeeds axios_post q _ _ d 0%nat);
      [lia | lia | intros i Hi; lia |].
    rewrite Nat.add_0_r, posts_of_no_posts by exact Hc. exact Hd. }
  destruct (Hfetch (Q_ROADS toStr b)) as (roads & Sr & Er).
  destruct (Hfetch (Q_BUILD toStr b)) as (builds & Sb & Eb).
  destruct (Hfetch (Q_AMEN toStr b)) as (amen & Sa & Ea).
  unfold fetch_all, bind.
  rewrite (settled_run axios_post schedule toStr b _ _ _ _ _ _ _ _ Er Eb Ea).
  rewrite interleave_singletons.
  unfold ret, lift. cbv beta iota. rewrite Promise_all_fulfilled.
  destruct (compute_returned_total b roads builds amen) as [m Hm].
  unfold generateGeminiAnalysis, ret. rewrite Hm.
  eexists _, l0, roads, builds, amen.
  split; [rewrite <- !app_assoc; reflexivity |].
  split; [exact Hc |]. repeat (split; [assumption |]). reflexivity.
Qed.

End Returning.

Lemma responsive_call_returns_witness :
  exists r l0 roads builds amen,
    analyzeBBox Sample.server Sample.order Sample.sched Sample.area_js
      Sample.len Sample.show Sample.report (JArr Sample.quad)
      default_options [] =
      (inr r, [] ++ l0 ++ [Post overpass_url (Q_ROADS Sample.show Sample.quad);
                           Post overpass_url (Q_BUILD Sample.show Sample.quad);
                           Post overpass_url (Q_AMEN Sample.show Sample.quad)]) /\
    Ref.count_posts l0 = 0%nat /\
    Sample.server overpass_url (Q_ROADS Sample.show Sample.quad)
      (posts_of (Q_ROADS Sample.show Sample.quad) []) = inr roads /\
    Sample.server overpass_url (Q_BUILD Sample.show Sample.quad)
      (posts_of (Q_BUILD Sample.show Sample.quad) []) = inr builds /\
    Sample.server overpass_url (Q_AMEN Sample.show Sample.quad)
      (posts_of (Q_AMEN Sample.show Sample.quad) []) = inr amen /\
    compute_returned Sample.area_js Sample.len Sample.quad
      (Some roads) (Some builds) (Some amen) = inr (res_metrics r) /\
    res_analysis r = Sample.report.
Proof.
  apply (responsive_call_returns Sample.server Sample.order Sample.sched
           Sample.area_js Sample.len Sample.show Sample.report).
  - intros l. exists 2. reflexivity.
  - intros q n. eexists. reflexivity.
  - reflexivity.
  - vm_compute. discriminate.
Defined.

(** X5: the [analysis] of a returned result is the fixed report text: two
    calls that return carry the same analysis, whatever their bounding
    boxes, options, payloads and measured geometry. *)
Theorem analysis_is_the_fixed_report
    (server1 server2 : string -> string -> nat -> res osmJson)
    (order1 order2 sched1 sched2 : list nat)
    (area1 area2 : list (list (jsval * jsval)) -> jsnum)
    (len1 len2 : turf_line -> res Q) (show1 show2 : jsval -> string)
    (areaReport : string) bbox1 bbox2 opts1 opts2 log1 log2 r1 r2 log1' log2' :
  analyzeBBox server1 order1 sched1 area1 len1 show1 areaReport bbox1 opts1 log1
    = (inr r1, log1') ->
  analyzeBBox server2 order2 sched2 area2 len2 show2 areaReport bbox2 opts2 log2
    = (inr r2, log2') ->
  res_analysis r1 = areaReport /\ res_analysis r1 = res_analysis r2.
Proof.
  intros H1 H2.
  apply analyzeBBox_inv in H1
    as (? & ? & ? & ? & ? & ? & ? & _ & _ & _ & _ & _ & E1 & _).
  apply analyzeBBox_inv in H2
    as (? & ? & ? & ? & ? & ? & ? & _ & _ & _ & _ & _ & E2 & _).
  split; congruence.
Qed.

Lemma analysis_is_the_fixed_report_witness :
  match Sample.run Sample.bbox, Sample.run Sample.bad_bbox with
  | (inr r1, _), (inr r2, _) =>
      res_analysis r1 = Sample.report /\ res_analysis r1 = res_analysis r2
  | _, _ => False
  end.
Proof.
  destruct (Sample.run Sample.bbox) as [[e | r1] l1] eqn:E1;
    [vm_compute in E1; discriminate |].
  destruct (Sample.run Sample.bad_bbox) as [[e | r2] l2] eqn:E2;
    [vm_compute in E2; discriminate |].
  exact (analysis_is_the_fixed_report _ _ _ _ _ _ _ _ _ _ _ _ _ _ _ _ _ _ _ _ _
           _ _ E1 E2).
Defined.

(** ** Further properties of the conversion *)

Lemma convert_element_cases gt el f :
  Convert.convert_element gt el = Some f ->
  Convert.includes gt (el_type el) = true /\
  properties f = Convert.props_of el /\
  ((el_type el = "node" /\ geometry f = Some (Point (el_lon el, el_lat el))) \/
   (el_type el = "way" /\ exists g, el_geometry el = Some g /\
      ((truthy (Convert.get (Convert.props_of el) "building") = false /\
        geometry f = Some (LineString (Convert.coords_of g))) \/
       (truthy (Convert.get (Convert.props_of el) "building") = true /\
        geometry f = Some (Polygon [Convert.close_ring (Convert.coords_of g)]))))).
Proof.
  unfold Convert.convert_element.
  destruct (Convert.includes gt (el_type el)); [| discriminate]. cbn [negb].
  destruct (String.eqb (el_type el) "node") eqn:En.
  - apply String.eqb_eq in En. intros [= <-]. auto.
  - destruct (String.eqb (el_type el) "way") eqn:Ew; [| discriminate].
    apply String.eqb_eq in Ew.
    destruct (el_geometry el) as [g |]; [| discriminate].
    intros [= <-]. split; [reflexivity |]. split; [reflexivity |].
    right. split; [exact Ew |]. exists g. split; [reflexivity |].
    destruct (truthy _); [right | left]; auto.
Qed.

(** X6: every feature of a converted collection stems from a node or a
    way of the payload whose type passes the filter; a node gives the
    Point [[lon, lat]], a way with a geometry array gives the LineString of
    its coordinates, or, with a truthy [building] property, a Polygon with
    the single closed ring.  Relations, ways without geometry and Multi
    geometries never appear, and every feature has a geometry. *)
Theorem converted_features_are_points_lines_rings (o : osmJson)
    (gt : list string) (fc : featureCollection) (f : feature) :
  Convert.osmToGeoJSON (Some o) gt = inr fc ->
  f ∈ default [] (features fc) ->
  exists el, el ∈ default [] (elements o) /\
    Convert.includes gt (el_type el) = true /\
    el_type el ≠ "relation" /\
    ((el_type el = "node" /\ geometry f = Some (Point (el_lon el, el_lat el))) \/
     (el_type el = "way" /\ exists g, el_geometry el = Some g /\
        ((truthy (Convert.get (Convert.props_of el) "building") = false /\
          geometry f = Some (LineString (Convert.coords_of g))) \/
         (truthy (Convert.get (Convert.props_of el) "building") = true /\
          geometry f =
            Some (Polygon [Convert.close_ring (Convert.coords_of g)]))))).
Proof.
  intros H Hf. injection H as <-. cbn in Hf.
  apply list_elem_of_omap in Hf as (el & Hel & Hc).
  apply convert_element_cases in Hc as (Hin & _ & Hcases).
  exists el. split; [exact Hel |]. split; [exact Hin |].
  split; [| exact Hcases].
  destruct Hcases as [[-> _] | [-> _]]; discriminate.
Qed.

Lemma converted_features_are_points_lines_rings_witness :
  match Convert.convert_element Convert.default_geomTypes Sample.hospital_node with
  | Some f =>
      exists el, el ∈ default [] (elements Sample.amenities) /\
        Convert.includes Convert.default_geomTypes (el_type el) = true /\
        el_type el ≠ "relation" /\
        ((el_type el = "node" /\
          geometry f = Some (Point (el_lon el, el_lat el))) \/
         (el_type el = "way" /\ exists g, el_geometry el = Some g /\
            ((truthy (Convert.get (Convert.props_of el) "building") = false /\
              geometry f = Some (LineString (Convert.coords_of g))) \/
             (truthy (Convert.get (Convert.props_of el) "building") = true /\
              geometry f =
                Some (Polygon [Convert.close_ring (Convert.coords_of g)])))))
  | None => False
  end.
Proof.
  destruct (Convert.convert_element Convert.default_geomTypes
              Sample.hospital_node) as [f |] eqn:E;
    [| vm_compute in E; discriminate].
  apply (converted_features_are_points_lines_rings Sample.amenities
           Convert.default_geomTypes
           {| features := Some (omap (Convert.convert_element
                                        Convert.default_geomTypes)
                                  (default [] (elements Sample.amenities))) |} f).
  - reflexivity.
  - cbn [features default]. apply list_elem_of_omap.
    exists Sample.hospital_node. split; [apply list_elem_of_here | exact E].
Defined.

Lemma convert_element_convertible gt el :
  is_Some (Convert.convert_element gt el) <-> Ref.convertible gt el = true.
Proof.
  unfold Convert.convert_element, Ref.convertible.
  destruct (Convert.includes gt (el_type el)); cbn [negb andb];
    [| split; [intros [? ?]; discriminate | discriminate]].
  destruct (String.eqb (el_type el) "node"); cbn [orb].
  - split; [reflexivity | eauto].
  - destruct (String.eqb (el_type el) "way"); cbn [andb];
      [| split; [intros [? ?]; discriminate | discriminate]].
    destruct (el_geometry el) as [g |].
    + split; [intros _; apply bool_decide_eq_true_2; eauto | eauto].
    + split; [intros [? ?]; discriminate |].
      intros H. apply bool_decide_eq_true_1 in H. destruct H. discriminate.
Qed.

Lemma length_omap_convert gt (els : list element) :
  length (omap (Convert.convert_element gt) els)
  = length (List.filter (Ref.convertible gt) els).
Proof.
  induction els as [| el els IH]; [reflexivity |].
  change (omap (Convert.convert_element gt) (el :: els))
    with (match Convert.convert_element gt el with
          | Some f => f :: omap (Convert.convert_element gt) els
          | None => omap (Convert.convert_element gt) els
          end).
  cbn [List.filter].
  pose proof (convert_element_convertible gt el) as Hc.
  destruct (Convert.convert_element gt el) as [f |];
    destruct (Ref.convertible gt el); cbn [length]; rewrite ?IH; auto.
  - assert (false = true) by (apply Hc; eauto). discriminate.
  - assert (H : is_Some (@None feature)) by (apply Hc; reflexivity).
    destruct H. discriminate.
Qed.

Section CountsAndLengths.

Variable turf_area : list (list (jsval * jsval)) -> Q.
Variable turf_length : turf_line -> res Q.

Local Abbreviation lengthKm' := (lengthKm turf_length).

(** X7: [buildings_count] is the number of elements of the building
    payload that are ways with a geometry array, whatever their tags; nodes,
    relations and ways without geometry are not counted.  The reported
    density is that number over the area, rounded to 3 decimals, and 0 for
    the area 0. *)
Theorem buildings_count_is_ways_with_geometry b roadsOs (builds : osmJson)
    amenOs m :
  compute_metrics turf_area turf_length b roadsOs (Some builds) amenOs = inr m ->
  let areaKm2 := turf_area (bboxPolygon b) / 1000000 in
  let n := length (List.filter (Ref.convertible ["way"])
                     (default [] (elements builds))) in
  buildings_count m = n /\
  buildings_per_km2 m =
    toFixed 3 (if Qeq_bool areaKm2 0 then 0 else Density.count_of n / areaKm2).
Proof.
  intros H areaKm2 n. revert H. unfold compute_metrics.
  destruct (Convert.osmToGeoJSON roadsOs ["way"]) as [e | roadsGeo];
    [discriminate |]. cbn [res_bind Convert.osmToGeoJSON].
  destruct (Convert.osmToGeoJSON amenOs ["node"]) as [e | amenGeo];
    [discriminate |]. cbn [res_bind].
  fold areaKm2.
  destruct (lengthKm turf_length (Some roadsGeo)) as [e | road_km];
    [discriminate |]. cbn [res_bind].
  destruct (Density.intersectionDensityPerKm2 (Some roadsGeo) areaKm2)
    as [e | intxn]; [discriminate |]. cbn [res_bind].
  destruct (filter_res (amenity_is "hospital") _) as [e | hosp];
    [discriminate |]. cbn [res_bind].
  destruct (filter_res (amenity_is "school") _) as [e | scho];
    [discriminate |]. cbn [res_bind].
  intros [= <-]. cbn [buildings_count buildings_per_km2 features default from_option].
  unfold id. rewrite length_omap_convert. split; reflexivity.
Qed.

Lemma ring_lengths_take polygons total :
  ring_lengths turf_length (map (take 1) polygons) total
  = ring_lengths turf_length polygons total.
Proof.
  revert total. induction polygons as [| ring rest IH]; intros total;
    [reflexivity |].
  cbn [map ring_lengths].
  assert (E : head (take 1 ring) = head ring) by now destruct ring.
  rewrite E. destruct (turf_length (RingLine (head ring))); cbn [res_bind];
    [reflexivity | apply IH].
Qed.

Lemma add_feature_length_outer total f :
  add_feature_length turf_length total (Ref.outer_rings f)
  = add_feature_length turf_length total f.
Proof.
  unfold add_feature_length, Ref.outer_rings. cbn [geometry].
  destruct (geometry f) as [[c | cs | ls | rings | polys] |]; try reflexivity.
  - apply (ring_lengths_take [rings]).
  - apply ring_lengths_take.
Qed.

Lemma length_loop_outer fs total :
  length_loop turf_length (map Ref.outer_rings fs) total
  = length_loop turf_length fs total.
Proof.
  revert total. induction fs as [| f rest IH]; intros total; [reflexivity |].
  cbn [map length_loop]. rewrite add_feature_length_outer.
  destruct (add_feature_length turf_length total f); cbn [res_bind];
    [reflexivity | apply IH].
Qed.

(** X8: only the first ring of a polygon is measured: dropping the inner
    rings of every Polygon and of every polygon of a MultiPolygon leaves
    the result of [lengthKm] unchanged, thrown errors included. *)
Theorem lengthKm_measures_outer_rings_only (fs : list feature) :
  lengthKm' (Some {| features := Some (map Ref.outer_rings fs) |})
  = lengthKm' (Some {| features := Some fs |}).
Proof.
  unfold lengthKm. cbn [features].
  destruct fs as [| f rest]; [reflexivity |].
  cbn [map]. apply (length_loop_outer (f :: rest)).
Qed.

Lemma ring_lengths_shift polygons t v t' :
  ring_lengths turf_length polygons t = inr v ->
  exists v', ring_lengths turf_length polygons t' = inr v' /\ v' - t' == v - t.
Proof.
  revert t t'. induction polygons as [| ring rest IH]; intros t t'; cbn.
  - intros [= <-]. exists t'. split; [reflexivity | lra].
  - destruct (turf_length (RingLine (head ring))) as [e | l]; [discriminate |].
    cbn. intros H. apply (IH _ (t' + l)) in H as (v' & -> & Hv).
    exists v'. split; [reflexivity | lra].
Qed.

Lemma add_feature_length_shift f t v t' :
  add_feature_length turf_length t f = inr v ->
  exists v', add_feature_length turf_length t' f = inr v' /\ v' - t' == v - t.
Proof.
  unfold add_feature_length.
  destruct (geometry f) as [[c | cs | ls | rings | polys] |];
    try apply ring_lengths_shift;
    try (intros [= <-]; exists t'; split; [reflexivity | lra]).
  - destruct (turf_length _) as [e | l]; [discriminate |]. cbn.
    intros [= <-]. eexists. split; [reflexivity | lra].
  - destruct (turf_length _) as [e | l]; [discriminate |]. cbn.
    intros [= <-]. eexists. split; [reflexivity | lra].
Qed.

Lemma length_loop_shift fs t v t' :
  length_loop turf_length fs t = inr v ->
  exists v', length_loop turf_length fs t' = inr v' /\ v' - t' == v - t.
Proof.
  revert t t'. induction fs as [| f rest IH]; intros t t'; cbn.
  - intros [= <-]. exists t'. split; [reflexivity | lra].
  - destruct (add_feature_length turf_length t f) as [e | u] eqn:Eu;
      [discriminate |].
    destruct (add_feature_length_shift f t u t' Eu) as (u' & -> & Hu).
    cbn. intros H. apply (IH _ u') in H as (v' & -> & Hv).
    exists v'. split; [reflexivity | lra].
Qed.

Lemma length_loop_app fs1 fs2 t :
  length_loop turf_length (fs1 ++ fs2) t
  = res_bind (length_loop turf_length fs1 t) (length_loop turf_length fs2).
Proof.
  revert t. induction fs1 as [| f rest IH]; intros t; [reflexivity |].
  cbn. destruct (add_feature_length turf_length t f); cbn; [reflexivity | apply IH].
Qed.

Lemma lengthKm_loop fs : lengthKm' (Some {| features := Some fs |})
                         = length_loop turf_length fs 0.
Proof. unfold lengthKm. cbn [features]. now destruct fs. Qed.

(** X9: [lengthKm] is additive: when the lengths of two collections are
    measured without an exception, so is the length of their
    concatenation, and it is the sum of the two. *)
Theorem lengthKm_additive (fs1 fs2 : list feature) (a b : Q) :
  lengthKm' (Some {| features := Some fs1 |}) = inr a ->
  lengthKm' (Some {| features := Some fs2 |}) = inr b ->
  exists c, lengthKm' (Some {| features := Some (fs1 ++ fs2) |}) = inr c /\
            c == a + b.
Proof.
  rewrite !lengthKm_loop, length_loop_app. intros -> Hb. cbn [res_bind].
  destruct (length_loop_shift fs2 0 b a Hb) as (c & -> & Hc).
  exists c. split; [reflexivity | lra].
Qed.

End CountsAndLengths.

Lemma buildings_count_is_ways_with_geometry_witness :
  match compute_metrics Sample.area Sample.len Sample.quad
          (Some Sample.roads) (Some Sample.buildings) (Some Sample.amenities)
  with
  | inr m =>
      let areaKm2 := Sample.area (bboxPolygon Sample.quad) / 1000000 in
      let n := length (List.filter (Ref.convertible ["way"])
                         (default [] (elements Sample.buildings))) in
      buildings_count m = n /\
      buildings_per_km2 m =
        toFixed 3 (if Qeq_bool areaKm2 0 then 0
                   else Density.count_of n / areaKm2)
  | inl _ => False
  end.
Proof.
  destruct (compute_metrics Sample.area Sample.len Sample.quad
              (Some Sample.roads) (Some Sample.buildings)
              (Some Sample.amenities)) as [e | m] eqn:E;
    [vm_compute in E; discriminate |].
  exact (buildings_count_is_ways_with_geometry Sample.area Sample.len
           Sample.quad (Some Sample.roads) Sample.buildings
           (Some Sample.amenities) m E).
Defined.

Lemma lengthKm_additive_witness :
  exists c,
    lengthKm Sample.len
      (Some {| features := Some
         ([{| geometry := Some (LineString [(0, 0); (1, 1)]); properties := ∅ |}]
          ++ [{| geometry := Some (Polygon [[Some (0, 0); Some (1, 0); Some (0, 0)]]);
                 properties := ∅ |}]) |}) = inr c /\
    c == 2 + 2.
Proof.
  apply (lengthKm_additive Sample.len
           [{| geometry := Some (LineString [(0, 0); (1, 1)]); properties := ∅ |}]
           [{| geometry := Some (Polygon [[Some (0, 0); Some (1, 0); Some (0, 0)]]);
               properties := ∅ |}] 2 2).
  - reflexivity.
  - reflexivity.
Defined.

(** ** Further properties of the densities *)

(** X10: [pointDensityPerKm2] is 0 for an absent collection and for the
    area 0, so it never divides by zero; for any other area it is the
    number of features over the area (0 features when [features] is
    missing), so that density times area gives the count back. *)
Theorem point_density_guards_and_inverse (fs : list feature) (areaKm2 : Q) :
  Density.pointDensityPerKm2 None areaKm2 = 0 /\
  (areaKm2 == 0 ->
   Density.pointDensityPerKm2 (Some {| features := Some fs |}) areaKm2 = 0) /\
  (~ areaKm2 == 0 ->
   Density.pointDensityPerKm2 (Some {| features := Some fs |}) areaKm2 * areaKm2
     == Density.count_of (length fs) /\
   Density.pointDensityPerKm2 (Some {| features := None |}) areaKm2 == 0) /\
  (0 < areaKm2 ->
   0 <= Density.pointDensityPerKm2 (Some {| features := Some fs |}) areaKm2).
Proof.
  unfold Density.pointDensityPerKm2. cbn [features default from_option].
  unfold id. split; [reflexivity |]. split; [| split].
  - intros H. apply Qeq_bool_iff in H. now rewrite H.
  - intros H. destruct (Qeq_bool areaKm2 0) eqn:E.
    + apply Qeq_bool_iff in E. contradiction.
    + split; [field; exact H |]. cbn. unfold Qdiv. now rewrite Qmult_0_l.
  - intros H. destruct (Qeq_bool areaKm2 0); [lra |].
    apply Qle_shift_div_l; [exact H |]. rewrite Qmult_0_l.
    unfold Density.count_of. change 0 with (inject_Z 0).
    rewrite <- Zle_Qle. lia.
Qed.

Lemma intersection_density_value (fs : list feature) (areaKm2 q : Q) :
  Density.intersectionDensityPerKm2 (Some {| features := Some fs |}) areaKm2
    = inr q ->
  q == (if Qeq_bool areaKm2 0 then 0
        else Density.count_of (length (Ref.busy_cells (Ref.road_vertices fs)))
             / areaKm2).
Proof.
  unfold Density.intersectionDensityPerKm2. cbn [features].
  destruct (Qeq_bool areaKm2 0); [intros [= <-]; reflexivity |].
  rewrite road_keys_vertices.
  destruct (length _ =? 0)%nat eqn:El.
  - intros [= <-]. apply Nat.eqb_eq in El. rewrite length_map in El.
    destruct (Ref.road_vertices fs); [| discriminate].
    cbn. unfold Qdiv. now rewrite Qmult_0_l.
  - intros [= <-]. now rewrite intersections_busy_cells.
Qed.

Lemma occ_Permutation {A} `{EqDecision A} (x : A) (l k : list A) :
  l ≡ₚ k -> Ref.occ x l = Ref.occ x k.
Proof.
  intros H. unfold Ref.occ. apply Permutation_length.
  now apply filter_Permutation.
Qed.

Lemma remove_dups_Permutation {A} `{EqDecision A} (l k : list A) :
  l ≡ₚ k -> remove_dups l ≡ₚ remove_dups k.
Proof.
  intros H. apply NoDup_Permutation; try apply NoDup_remove_dups.
  intros x. rewrite !elem_of_remove_dups. now rewrite H.
Qed.

Lemma busy_cells_Permutation (vs vs' : list position) :
  vs ≡ₚ vs' -> length (Ref.busy_cells vs) = length (Ref.busy_cells vs').
Proof.
  intros H. unfold Ref.busy_cells.
  assert (Hc : map Ref.quantize vs ≡ₚ map Ref.quantize vs')
    by now apply Permutation_map.
  rewrite (length_filter_ext _
             (fun c => (3 <= Ref.occ c (map Ref.quantize vs'))%nat)).
  - apply Permutation_length, filter_Permutation.
    now apply remove_dups_Permutation.
  - intros c. now rewrite (occ_Permutation c _ _ Hc).
Qed.

(** X11: the intersection density depends only on the area and on the
    multiset of vertices of the LineStrings and MultiLineStrings: two road
    collections with the same line vertices up to order give the same
    density, whatever the order of their features and whatever Points and
    Polygons they contain. *)
Theorem intersection_density_depends_on_line_vertices
    (fs fs' : list feature) (areaKm2 q q' : Q) :
  Ref.road_vertices fs ≡ₚ Ref.road_vertices fs' ->
  Density.intersectionDensityPerKm2 (Some {| features := Some fs |}) areaKm2
    = inr q ->
  Density.intersectionDensityPerKm2 (Some {| features := Some fs' |}) areaKm2
    = inr q' ->
  q == q'.
Proof.
  intros Hp Hq Hq'.
  apply intersection_density_value in Hq, Hq'.
  rewrite Hq, Hq', (busy_cells_Permutation _ _ Hp). reflexivity.
Qed.

Lemma intersection_density_depends_on_line_vertices_witness :
  1 # 4 == 1 # 4.
Proof.
  apply (intersection_density_depends_on_line_vertices
           [{| geometry := Some (LineString [(0, 0); (0, 0); (0, 0)]);
               properties := ∅ |};
            {| geometry := Some (Point (1, 1)); properties := ∅ |}]
           [{| geometry := Some (Polygon [[Some (5, 5)]]); properties := ∅ |};
            {| geometry := Some (MultiLineString [[(0, 0)]; [(0, 0); (0, 0)]]);
               properties := ∅ |}]
           4 (1 # 4) (1 # 4)).
  - reflexivity.
  - vm_compute. reflexivity.
  - vm_compute. reflexivity.
Defined.

Lemma length_filter_elem_cons {A} `{EqDecision A} (k : A) (ks l : list A) :
  k ∉ ks ->
  length (filter (fun x => x ∈ k :: ks) l)
  = (Ref.occ k l + length (filter (fun x => x ∈ ks) l))%nat.
Proof.
  intros Hk. induction l as [| y l IH]; [reflexivity |].
  rewrite occ_cons, !filter_cons.
  destruct (decide (y = k)) as [-> | Hne].
  - rewrite decide_True by apply list_elem_of_here.
    rewrite decide_False by exact Hk. cbn [length]. rewrite IH. lia.
  - destruct (decide (y ∈ ks)) as [Hin | Hnin].
    + rewrite decide_True by now apply list_elem_of_further.
      cbn [length]. rewrite IH. lia.
    + rewrite decide_False.
      * rewrite IH. lia.
      * intros Hin. apply elem_of_cons in Hin as [-> | Hin]; contradiction.
Qed.

Lemma busy_bound {A} `{EqDecision A} (ks l : list A) :
  NoDup ks ->
  (3 * length (filter (fun c => (3 <= Ref.occ c l)%nat) ks)
   <= length (filter (fun x => x ∈ ks) l))%nat.
Proof.
  induction 1 as [| k ks Hk Hnd IH].
  - cbn. lia.
  - rewrite (length_filter_elem_cons k ks l Hk), filter_cons.
    destruct (decide (3 <= Ref.occ k l)%nat); cbn [length]; lia.
Qed.

(** X12: every counted intersection needs three vertices of its own: for
    a positive area, three times the density times the area is at most the
    number of line vertices of the road collection. *)
Theorem intersections_need_three_vertices (fs : list feature) (areaKm2 q : Q) :
  0 < areaKm2 ->
  Density.intersectionDensityPerKm2 (Some {| features := Some fs |}) areaKm2
    = inr q ->
  3 * (q * areaKm2) <= Density.count_of (length (Ref.road_vertices fs)).
Proof.
  intros Ha Hq. apply intersection_density_value in Hq.
  destruct (Qeq_bool areaKm2 0) eqn:E.
  { apply Qeq_bool_iff in E. lra. }
  set (vs := Ref.road_vertices fs) in *.
  assert (Hb : (3 * length (Ref.busy_cells vs) <= length vs)%nat).
  { unfold Ref.busy_cells.
    etransitivity; [apply busy_bound, NoDup_remove_dups |].
    etransitivity; [apply length_filter |]. now rewrite length_map. }
  assert (Hq' : q * areaKm2 == Density.count_of (length (Ref.busy_cells vs))).
  { rewrite Hq. field. lra. }
  rewrite Hq'. unfold Density.count_of.
  change 3 with (inject_Z 3). rewrite <- inject_Z_mult, <- Zle_Qle. lia.
Qed.

Lemma intersections_need_three_vertices_witness :
  3 * ((1 # 4) * 4) <= Density.count_of 3.
Proof.
  apply (intersections_need_three_vertices
           [{| geometry := Some (LineString [(0, 0); (0, 0); (0, 0)]);
               properties := ∅ |}] 4 (1 # 4)).
  - reflexivity.
  - vm_compute. reflexivity.
Defined.

(** ** The grid of the intersection heuristic *)

Lemma Math_round_interval (x : Q) (n : Z) :
  Math_round x = n <-> inject_Z n - (1 # 2) <= x < inject_Z n + (1 # 2).
Proof.
  unfold Math_round. split.
  - intros <-. pose proof (Qfloor_le (x + (1 # 2))).
    pose proof (Qlt_floor (x + (1 # 2))) as Hlt.
    rewrite inject_Z_plus in Hlt. change (inject_Z 1) with 1 in Hlt. lra.
  - intros [Hlo Hhi]. apply Z.le_antisymm.
    + apply Z.lt_succ_r. rewrite Zlt_Qlt.
      eapply Qle_lt_trans; [apply Qfloor_le |].
      unfold Z.succ. rewrite inject_Z_plus. change (inject_Z 1) with 1. lra.
    + rewrite <- (Qfloor_Z n). apply Qfloor_resp_le. lra.
Qed.

(** X13: two vertices get the same key exactly when they lie in the same
    grid cell, that is when their longitudes times 10,000 round to the same
    integer and so do their latitudes; a coordinate [x] is in the cell [n]
    exactly when [n - 1/2 <= 10000 x < n + 1/2].  Distinct cells never
    share a key. *)
Theorem same_key_iff_same_cell (p q : position) :
  (Density.cell_key p = Density.cell_key q <->
   Math_round (fst p * 10000) = Math_round (fst q * 10000) /\
   Math_round (snd p * 10000) = Math_round (snd q * 10000)) /\
  (forall n m : Z,
     Ref.quantize p = (n, m) <->
     (inject_Z n - (1 # 2) <= fst p * 10000 < inject_Z n + (1 # 2)) /\
     (inject_Z m - (1 # 2) <= snd p * 10000 < inject_Z m + (1 # 2))).
Proof.
  split.
  - rewrite !cell_key_quantize. unfold Ref.quantize. split.
    + intros H. apply key_inj in H. now injection H.
    + intros [-> ->]. reflexivity.
  - intros n m. unfold Ref.quantize.
    rewrite <- !Math_round_interval. split.
    + intros [= -> ->]. auto.
    + intros [-> ->]. reflexivity.
Qed.

(** ** Further properties of the score *)

(** X14: the score never decreases when a density increases: it is
    monotone in the road density, the intersection density, the hospital
    density and the school density. *)
Theorem socio_score_monotone (r r' i i' h h' s s' : Q) :
  r <= r' -> i <= i' -> h <= h' -> s <= s' ->
  socio_score r i h s <= socio_score r' i' h' s'.
Proof.
  intros Hr Hi Hh Hs. unfold socio_score. cbv zeta.
  pose proof eps_pos as He.
  assert (H1 : normClip r 0 10 <= normClip r' 0 10)
    by (apply normClip_mono; [lra | exact Hr]).
  assert (H2 : normClip i 0 200 <= normClip i' 0 200)
    by (apply normClip_mono; [lra | exact Hi]).
  assert (H3 : normClip h 0 5 <= normClip h' 0 5)
    by (apply normClip_mono; [lra | exact Hh]).
  assert (H4 : normClip s 0 8 <= normClip s' 0 8)
    by (apply normClip_mono; [lra | exact Hs]).
  lra.
Qed.

Lemma socio_score_monotone_witness :
  socio_score 1 20 0 0 <= socio_score 2 20 1 (1 # 2).
Proof.
  apply (socio_score_monotone 1 2 20 20 0 1 0 (1 # 2));
    vm_compute; discriminate.
Defined.

Lemma normClip_low (x b : Q) : 0 <= b -> x <= 0 -> normClip x 0 b == 0.
Proof.
  intros Hb Hx. unfold normClip. pose proof eps_pos.
  assert ((x - 0) / (b - 0 + eps) <= 0).
  { apply Qle_shift_div_r; lra. }
  minmax; lra.
Qed.

Lemma normClip_high (x b : Q) : 0 <= b -> b + eps <= x -> normClip x 0 b == 1.
Proof.
  intros Hb Hx. unfold normClip. pose proof eps_pos.
  assert (1 <= (x - 0) / (b - 0 + eps)).
  { apply Qle_shift_div_l; lra. }
  minmax; lra.
Qed.

(** X15: the bounds 0 and 70 of the score are attained: the score is 0
    when no density is positive, and 70 when the four densities reach
    [10 + 1e-9], [200 + 1e-9], [5 + 1e-9] and [8 + 1e-9]; below these
    values the score stays below 70. *)
Theorem socio_score_extremes (r i h s : Q) :
  (r <= 0 -> i <= 0 -> h <= 0 -> s <= 0 -> socio_score r i h s == 0) /\
  (10 + eps <= r -> 200 + eps <= i -> 5 + eps <= h -> 8 + eps <= s ->
   socio_score r i h s == 70) /\
  (r < 10 + eps \/ i < 200 + eps \/ h < 5 + eps \/ s < 8 + eps ->
   socio_score r i h s < 70).
Proof.
  unfold socio_score. cbv zeta. split; [| split].
  - intros Hr Hi Hh Hs.
    rewrite (normClip_low r 10), (normClip_low i 200), (normClip_low h 5),
      (normClip_low s 8) by lra. reflexivity.
  - intros Hr Hi Hh Hs.
    rewrite (normClip_high r 10), (normClip_high i 200), (normClip_high h 5),
      (normClip_high s 8) by lra. reflexivity.
  - intros H.
    pose proof (normClip_range r 0 10). pose proof (normClip_range i 0 200).
    pose proof (normClip_range h 0 5). pose proof (normClip_range s 0 8).
    pose proof eps_pos as He.
    assert (Hlt : forall x b, 0 <= b -> x < b + eps -> normClip x 0 b < 1).
    { intros x b Hb Hx. unfold normClip.
      assert ((x - 0) / (b - 0 + eps) < 1).
      { apply Qlt_shift_div_r; lra. }
      minmax; lra. }
    destruct H as [H | [H | [H | H]]];
      [pose proof (Hlt r 10 ltac:(lra) H)
      | pose proof (Hlt i 200 ltac:(lra) H)
      | pose proof (Hlt h 5 ltac:(lra) H)
      | pose proof (Hlt s 8 ltac:(lra) H)]; lra.
Qed.

Section ZeroArea.

Variable turf_area : list (list (jsval * jsval)) -> Q.
Variable turf_length : turf_line -> res Q.

(** X16: for a bounding box of area 0 every returned density is 0 and so
    is the score: the guards keep all divisions by the area out of reach. *)
Theorem zero_area_gives_zero_densities b roadsOs buildOs amenOs m :
  turf_area (bboxPolygon b) == 0 ->
  compute_metrics turf_area turf_length b roadsOs buildOs amenOs = inr m ->
  area_km2 m == 0 /\ roads_km_per_km2 m == 0 /\ buildings_per_km2 m == 0 /\
  intersections_per_km2 m == 0 /\ hospitals_per_km2 m == 0 /\
  schools_per_km2 m == 0 /\ SocioEconScore m == 0.
Proof.
  intros Ha. unfold compute_metrics.
  assert (E : Qeq_bool (turf_area (bboxPolygon b) / 1000000) 0 = true).
  { apply Qeq_bool_iff. rewrite Ha. reflexivity. }
  assert (Ez : turf_area (bboxPolygon b) / 1000000 == 0)
    by now apply Qeq_bool_iff.
  destruct (Convert.osmToGeoJSON roadsOs ["way"]) as [e | roadsGeo];
    [discriminate |]. cbn [res_bind].
  destruct (Convert.osmToGeoJSON buildOs ["way"]) as [e | buildGeo];
    [discriminate |]. cbn [res_bind].
  destruct (Convert.osmToGeoJSON amenOs ["node"]) as [e | amenGeo];
    [discriminate |]. cbn [res_bind].
  destruct (lengthKm turf_length (Some roadsGeo)) as [e | road_km];
    [discriminate |]. cbn [res_bind].
  unfold Density.intersectionDensityPerKm2, Density.pointDensityPerKm2.
  rewrite !E. cbn [res_bind].
  destruct (filter_res (amenity_is "hospital") _) as [e | hosp];
    [discriminate |]. cbn [res_bind].
  destruct (filter_res (amenity_is "school") _) as [e | scho];
    [discriminate |]. cbn [res_bind].
  intros [= <-]. cbn.
  assert (Z3 : toFixed 3 0 == 0) by reflexivity.
  assert (Z4 : toFixed 4 0 == 0) by reflexivity.
  assert (Z1 : toFixed 1 (socio_score 0 0 0 0) == 0) by reflexivity.
  repeat split; try assumption.
  apply Qle_antisym.
  - rewrite <- Z3. apply toFixed_mono. lra.
  - rewrite <- Z3 at 1. apply toFixed_mono. lra.
Qed.

End ZeroArea.

Lemma zero_area_gives_zero_densities_witness :
  match compute_metrics (fun _ => 0) Sample.len Sample.quad
          (Some Sample.roads) (Some Sample.buildings) (Some Sample.amenities)
  with
  | inr m =>
      area_km2 m == 0 /\ roads_km_per_km2 m == 0 /\ buildings_per_km2 m == 0 /\
      intersections_per_km2 m == 0 /\ hospitals_per_km2 m == 0 /\
      schools_per_km2 m == 0 /\ SocioEconScore m == 0
  | inl _ => False
  end.
Proof.
  destruct (compute_metrics (fun _ => 0) Sample.len Sample.quad
              (Some Sample.roads) (Some Sample.buildings)
              (Some Sample.amenities)) as [e | m] eqn:E;
    [vm_compute in E; discriminate |].
  apply (zero_area_gives_zero_densities (fun _ => 0) Sample.len Sample.quad
           (Some Sample.roads) (Some Sample.buildings) (Some Sample.amenities) m).
  - reflexivity.
  - exact E.
Defined.

(** ** The reported area and road length *)

Section ReportedValues.

Variable turf_area : list (list (jsval * jsval)) -> jsnum.
Variable turf_length : turf_line -> res Q.

(** X17: the reported road length is a number that differs from the
    measured one by at most half a unit of the third decimal; when the
    area of the box is a number, so is the reported area, within half a
    unit of the third decimal of the area in square kilometres; when the
    area of the box is [NaN], the reported area is [NaN]. *)
Theorem reported_lengths_within_half_unit b (roads : osmJson) buildOs amenOs m :
  compute_returned turf_area turf_length b (Some roads) buildOs amenOs = inr m ->
  exists road_km,
    lengthKm turf_length
      (Some {| features := Some (omap (Convert.convert_element ["way"])
                                   (default [] (elements roads))) |})
      = inr road_km /\
    (exists rk, ret_roads_km m = Some rk /\ Qabs (rk - road_km) <= 1 # 2000) /\
    match turf_area (bboxPolygon b) with
    | Some a =>
        exists ak, ret_area_km2 m = Some ak /\
                   Qabs (ak - a / 1000000) <= 1 # 2000
    | None => ret_area_km2 m = None
    end.
Proof.
  unfold compute_returned. cbn [Convert.osmToGeoJSON res_bind].
  destruct (Convert.osmToGeoJSON buildOs ["way"]) as [e | buildGeo];
    [discriminate |]. cbn [res_bind].
  destruct (Convert.osmToGeoJSON amenOs ["node"]) as [e | amenGeo];
    [discriminate |]. cbn [res_bind].
  destruct (lengthKm turf_length _) as [e | road_km]; [discriminate |].
  cbn [res_bind].
  destruct (JsNum.intersectionDensityPerKm2 _ _) as [e | intxn];
    [discriminate |]. cbn [res_bind].
  destruct (filter_res (amenity_is "hospital") _) as [e | hosp];
    [discriminate |]. cbn [res_bind].
  destruct (filter_res (amenity_is "school") _) as [e | scho];
    [discriminate |]. cbn [res_bind].
  intros [= <-]. cbn [ret_roads_km ret_area_km2].
  exists road_km. split; [reflexivity |]. split.
  - eexists. split; [reflexivity |]. apply (toFixed_error 3).
  - destruct (turf_area (bboxPolygon b)) as [a |]; [| reflexivity].
    eexists. split; [reflexivity |]. apply (toFixed_error 3).
Qed.

End ReportedValues.

Lemma reported_lengths_within_half_unit_witness :
  match compute_returned Sample.area_js Sample.len Sample.quad
          (Some Sample.roads) (Some Sample.buildings) (Some Sample.amenities)
  with
  | inr m =>
      exists road_km,
        lengthKm Sample.len
          (Some {| features := Some (omap (Convert.convert_element ["way"])
                                       (default [] (elements Sample.roads))) |})
          = inr road_km /\
        (exists rk, ret_roads_km m = Some rk /\
                    Qabs (rk - road_km) <= 1 # 2000) /\
        match Sample.area_js (bboxPolygon Sample.quad) with
        | Some a =>
            exists ak, ret_area_km2 m = Some ak /\
                       Qabs (ak - a / 1000000) <= 1 # 2000
        | None => ret_area_km2 m = None
        end
  | inl _ => False
  end.
Proof.
  destruct (compute_returned Sample.area_js Sample.len Sample.quad
              (Some Sample.roads) (Some Sample.buildings)
              (Some Sample.amenities)) as [e | m] eqn:E;
    [vm_compute in E; discriminate |].
  exact (reported_lengths_within_half_unit Sample.area_js Sample.len
           Sample.quad Sample.roads (Some Sample.buildings)
           (Some Sample.amenities) m E).
Defined.

(** ** The three queries *)

(** X18: for every bounding box the road, building and amenity queries
    are three different strings, so the server and the retry counter can
    tell the three fetches apart. *)
Theorem queries_pairwise_distinct (toStr : jsval -> string) (b : list jsval) :
  Q_ROADS toStr b ≠ Q_BUILD toStr b /\
  Q_ROADS toStr b ≠ Q_AMEN toStr b /\
  Q_BUILD toStr b ≠ Q_AMEN toStr b.
Proof.
  unfold Q_ROADS, Q_BUILD, Q_AMEN. repeat split; intros H.
  - apply (inj (String.app _)) in H. apply (inj (String.app _)) in H.
    discriminate.
  - simpl in H. discriminate.
  - simpl in H. discriminate.
Qed.

(** ** The caller's search for the longest distance *)

Lemma Qsquare_nonneg (a : Q) : 0 <= a * a.
Proof.
  destruct (Qlt_le_dec a 0) as [Hneg | Hpos].
  - assert (E : a * a == (- a) * (- a)) by ring. rewrite E.
    apply Qmult_le_0_compat; lra.
  - now apply Qmult_le_0_compat.
Qed.

Lemma dist2_nonneg (p q : Landing.point) : 0 <= Landing.dist2 p q.
Proof.
  unfold Landing.dist2.
  pose proof (Qsquare_nonneg (fst q - fst p)).
  pose proof (Qsquare_nonneg (snd q - snd p)). lra.
Qed.

Section SearchFacts.

Variable Math_sqrt : Q -> Q.
Hypothesis sqrt_0 : Math_sqrt 0 == 0.
Hypothesis sqrt_order :
  forall x y, 0 <= x -> 0 <= y -> (Math_sqrt x < Math_sqrt y <-> x < y).

Local Abbreviation step :=
  (fun st (pq : Landing.point * Landing.point) =>
     Landing.visit Math_sqrt (fst pq) st (snd pq)).

Lemma sqrt_le (x y : Q) :
  0 <= x -> 0 <= y -> (Math_sqrt x <= Math_sqrt y <-> x <= y).
Proof.
  intros Hx Hy. split; intros H.
  - apply Qnot_lt_le. intros Hlt. apply (sqrt_order y x Hy Hx) in Hlt. lra.
  - apply Qnot_lt_le. intros Hlt. apply (sqrt_order y x Hy Hx) in Hlt. lra.
Qed.

Lemma fold_visit_pairs p rest st :
  fold_left (Landing.visit Math_sqrt p) rest st
  = fold_left step (map (pair p) rest) st.
Proof.
  revert st. induction rest as [| q rest IH]; intros st; [reflexivity |].
  cbn [map fold_left]. apply IH.
Qed.

Lemma scan_pairs l st :
  Landing.scan Math_sqrt l st = fold_left step (Landing.pairs l) st.
Proof.
  revert st. induction l as [| p rest IH]; intros st; [reflexivity |].
  cbn [Landing.scan Landing.pairs].
  now rewrite fold_left_app, IH, fold_visit_pairs.
Qed.

Lemma search_inv_step seen st pq :
  Landing.search_inv Math_sqrt seen st -> Landing.search_inv Math_sqrt (seen ++ [pq]) (step st pq).
Proof.
  intros [Hall Hst]. destruct pq as [p q]. unfold Landing.visit. cbn [fst snd].
  destruct (Qlt_le_dec (Landing.maxDistance st)
              (Math_sqrt (Landing.dist2 p q))) as [Hlt | Hle].
  - split; cbn [Landing.maxDistance Landing.point1 Landing.point2].
    + intros pq' Hin. apply elem_of_app in Hin as [Hin | Hin].
      * specialize (Hall pq' Hin). lra.
      * apply list_elem_of_singleton in Hin. subst pq'. cbn. lra.
    + right. exists p, q. repeat split; try reflexivity.
      * apply elem_of_app. right. apply list_elem_of_here.
      * destruct Hst as [(_ & _ & H0) | (p' & q' & _ & _ & _ & _ & Hpos)]; lra.
  - split.
    + intros pq' Hin. apply elem_of_app in Hin as [Hin | Hin].
      * apply Hall, Hin.
      * apply list_elem_of_singleton in Hin. subst pq'. exact Hle.
    + destruct Hst as [H | (p' & q' & H1 & H2 & Hin & Hmax & Hpos)];
        [left; exact H |].
      right. exists p', q'. repeat split; try assumption.
      apply elem_of_app. now left.
Qed.

Lemma search_inv_fold ps :
  forall seen st, Landing.search_inv Math_sqrt seen st ->
                  Landing.search_inv Math_sqrt (seen ++ ps) (fold_left step ps st).
Proof.
  induction ps as [| pq ps IH]; intros seen st H.
  - now rewrite app_nil_r.
  - cbn [fold_left].
    replace (seen ++ pq :: ps) with ((seen ++ [pq]) ++ ps)
      by now rewrite <- app_assoc.
    apply IH, search_inv_step, H.
Qed.

Lemma search_inv_scan l :
  Landing.search_inv Math_sqrt (Landing.pairs l) (Landing.scan Math_sqrt l Landing.start).
Proof.
  rewrite scan_pairs. apply (search_inv_fold (Landing.pairs l) []).
  split.
  - intros pq Hin. inversion Hin.
  - left. repeat split; reflexivity.
Qed.

(** X19: when [findLongestDistance] returns, its result is the array
    [[lon1, lat1, lon2, lat2]] of two of the given points, the first one
    earlier in the list, that are apart and whose distance is maximal among
    all pairs of the given points. *)
Theorem findLongestDistance_returns_a_farthest_pair
    (l : list Landing.point) (bbox : jsval) :
  Landing.findLongestDistance Math_sqrt l = inr bbox ->
  exists p q,
    (p, q) ∈ Landing.pairs l /\
    bbox = JArr [JNum (snd p); JNum (fst p); JNum (snd q); JNum (fst q)] /\
    0 < Landing.dist2 p q /\
    forall p' q', (p', q') ∈ Landing.pairs l ->
                  Landing.dist2 p' q' <= Landing.dist2 p q.
Proof.
  unfold Landing.findLongestDistance.
  destruct (length l <? 2)%nat; [discriminate |].
  destruct (search_inv_scan l) as [Hall Hst].
  destruct Hst as [(H1 & H2 & _) | (p & q & H1 & H2 & Hin & Hmax & Hpos)].
  - rewrite H1. discriminate.
  - rewrite H1, H2. destruct p as [lat1 lon1], q as [lat2 lon2].
    intros [= <-]. exists (lat1, lon1), (lat2, lon2).
    split; [exact Hin |]. split; [reflexivity |].
    pose proof (dist2_nonneg (lat1, lon1) (lat2, lon2)) as Hn.
    split.
    + assert (Hs : Math_sqrt 0
                   < Math_sqrt (Landing.dist2 (lat1, lon1) (lat2, lon2)))
        by (rewrite sqrt_0, <- Hmax; exact Hpos).
      exact (proj1 (sqrt_order 0 _ ltac:(lra) Hn) Hs).
    + intros p' q' Hin'. specialize (Hall (p', q') Hin'). cbn [fst snd] in Hall.
      rewrite Hmax in Hall.
      exact (proj1 (sqrt_le _ _ (dist2_nonneg p' q') Hn) Hall).
Qed.

(** X20: fewer than two points are rejected with an Error; two or more
    points that all coincide are not: the search finds no pair, and the
    function throws a TypeError when it destructures [null]. *)
Theorem findLongestDistance_failures (l : list Landing.point) :
  ((length l < 2)%nat ->
   Landing.findLongestDistance Math_sqrt l
     = inl (JsError "At least 2 coordinates are required")) /\
  ((2 <= length l)%nat ->
   (forall p q, (p, q) ∈ Landing.pairs l -> Landing.dist2 p q == 0) ->
   Landing.findLongestDistance Math_sqrt l
     = inl (TypeError "null is not iterable")).
Proof.
  unfold Landing.findLongestDistance. split.
  - intros H. apply Nat.ltb_lt in H. now rewrite H.
  - intros H Hzero. apply Nat.ltb_ge in H. rewrite H.
    destruct (search_inv_scan l) as [Hall Hst].
    destruct Hst as [(H1 & H2 & _) | (p & q & H1 & H2 & Hin & Hmax & Hpos)].
    + now rewrite H1.
    + exfalso.
      assert (Hs : Math_sqrt 0 < Math_sqrt (Landing.dist2 p q))
        by (rewrite sqrt_0, <- Hmax; exact Hpos).
      apply (proj1 (sqrt_order 0 _ ltac:(lra) (dist2_nonneg p q))) in Hs.
      rewrite (Hzero p q Hin) in Hs. lra.
Qed.

End SearchFacts.

(** X21: whatever [findLongestDistance] returns is an array of four
    numbers, so [analyzeBBox] never answers it with its validation error;
    the returned corners keep the order of the points: for two points that
    are apart the result is [[lon, lat]] of the first followed by
    [[lon, lat]] of the second, not a minimum and a maximum corner. *)
Theorem findLongestDistance_gives_a_quad (Math_sqrt : Q -> Q)
    (l : list Landing.point) (bbox : jsval) :
  Landing.findLongestDistance Math_sqrt l = inr bbox ->
  Ref.is_quad bbox /\
  (exists a b c d, bbox = JArr [JNum a; JNum b; JNum c; JNum d]) /\
  (forall p q, l = [p; q] ->
     bbox = JArr [JNum (snd p); JNum (fst p); JNum (snd q); JNum (fst q)]).
Proof.
  unfold Landing.findLongestDistance.
  destruct (length l <? 2)%nat; [discriminate |].
  destruct (Landing.point1 _) as [[lat1 lon1] |] eqn:E1; [| discriminate].
  destruct (Landing.point2 _) as [[lat2 lon2] |] eqn:E2; [| discriminate].
  intros [= <-]. split; [eexists; split; reflexivity |].
  split; [now eexists _, _, _, _ |].
  intros p q ->. revert E1 E2. cbn [Landing.scan fold_left].
  unfold Landing.visit.
  destruct (Qlt_le_dec _ _); cbn; [| discriminate].
  now intros [= ->] [= ->].
Qed.

Lemma findLongestDistance_returns_a_farthest_pair_witness :
  exists p q,
    (p, q) ∈ Landing.pairs Sample.three_clicks /\
    JArr [JNum 0; JNum 0; JNum 4; JNum 3]
      = JArr [JNum (snd p); JNum (fst p); JNum (snd q); JNum (fst q)] /\
    0 < Landing.dist2 p q /\
    forall p' q', (p', q') ∈ Landing.pairs Sample.three_clicks ->
                  Landing.dist2 p' q' <= Landing.dist2 p q.
Proof.
  apply (findLongestDistance_returns_a_farthest_pair (fun x => x)).
  - reflexivity.
  - intros x y _ _. reflexivity.
  - vm_compute. reflexivity.
Defined.

Lemma findLongestDistance_failures_witness :
  ((length Sample.same_spot < 2)%nat ->
   Landing.findLongestDistance (fun x => x) Sample.same_spot
     = inl (JsError "At least 2 coordinates are required")) /\
  ((2 <= length Sample.same_spot)%nat ->
   (forall p q, (p, q) ∈ Landing.pairs Sample.same_spot ->
                Landing.dist2 p q == 0) ->
   Landing.findLongestDistance (fun x => x) Sample.same_spot
     = inl (TypeError "null is not iterable")).
Proof.
  apply (findLongestDistance_failures (fun x => x)).
  - reflexivity.
  - intros x y _ _. reflexivity.
Defined.

Lemma findLongestDistance_gives_a_quad_witness :
  Ref.is_quad (JArr [JNum 4; JNum 3; JNum 0; JNum 0]) /\
  (exists a b c d,
     JArr [JNum 4; JNum 3; JNum 0; JNum 0] = JArr [JNum a; JNum b; JNum c; JNum d]) /\
  (forall p q, [(3, 4); (0, 0)] = [p; q] ->
     JArr [JNum 4; JNum 3; JNum 0; JNum 0]
       = JArr [JNum (snd p); JNum (fst p); JNum (snd q); JNum (fst q)]).
Proof.
  apply (findLongestDistance_gives_a_quad (fun x => x) [(3, 4); (0, 0)]).
  vm_compute. reflexivity.
Defined.

(** ** The list of clicked points *)

Lemma edit_length (l l' : list Landing.point) :
  Landing.edit l l' ->
  (length l <= Landing.MAX_POINTS)%nat -> (length l' <= Landing.MAX_POINTS)%nat.
Proof.
  intros H Hl. destruct H as [p l | i p l Hi | l | l].
  - unfold Landing.click, Landing.addPoint.
    destruct (Landing.MAX_POINTS <=? length l)%nat eqn:E; [exact Hl |].
    apply Nat.leb_gt in E. rewrite length_app. cbn. lia.
  - unfold Landing.onMarkerDragEnd. now rewrite length_insert.
  - unfold Landing.removeLast. rewrite length_take. lia.
  - cbn. unfold Landing.MAX_POINTS. lia.
Qed.

(** X22: starting from a list of at most four points, in particular from
    the empty list, no sequence of clicks, marker drags, removals and
    clearings produces a list of more than four points. *)
Theorem points_never_exceed_four (l l' : list Landing.point) :
  (length l <= 4)%nat -> rtc Landing.edit l l' -> (length l' <= 4)%nat.
Proof.
  intros Hl H. induction H as [l | l l1 l2 H1 _ IH]; [exact Hl |].
  apply IH. exact (edit_length l l1 H1 Hl).
Qed.

Lemma points_never_exceed_four_witness :
  (length (Landing.removeLast
             (Landing.click (5%Q, 5%Q)
                (Landing.click (4%Q, 4%Q) Sample.three_clicks))) <= 4)%nat.
Proof.
  apply (points_never_exceed_four Sample.three_clicks).
  - cbn. lia.
  - eapply rtc_l; [apply Landing.edit_click |].
    eapply rtc_l; [apply Landing.edit_click |].
    eapply rtc_l; [apply Landing.edit_remove |].
    apply rtc_refl.
Defined.

(** X23: on a list that is not full, adding a point and removing the last
    one gives the list back; on a full list adding changes nothing;
    removing from the empty list gives the empty list; dragging the marker
    [i] replaces the point [i] and keeps the number and the other points. *)
Theorem point_edits_compose (latlng : Landing.point) (l : list Landing.point) :
  ((length l < 4)%nat ->
   Landing.removeLast (Landing.addPoint latlng l) = l /\
   Landing.click latlng l = l ++ [latlng]) /\
  ((4 <= length l)%nat ->
   Landing.addPoint latlng l = l /\ Landing.click latlng l = l) /\
  Landing.removeLast [] = [] /\
  (forall i, (i < length l)%nat ->
     length (Landing.onMarkerDragEnd i latlng l) = length l /\
     Landing.onMarkerDragEnd i latlng l !! i = Some latlng /\
     forall j, j ≠ i -> Landing.onMarkerDragEnd i latlng l !! j = l !! j).
Proof.
  unfold Landing.click, Landing.addPoint, Landing.removeLast,
    Landing.onMarkerDragEnd, Landing.MAX_POINTS.
  split; [| split; [| split]].
  - intros H. assert (E : (4 <=? length l)%nat = false) by now apply Nat.leb_gt.
    rewrite E. split; [| reflexivity].
    rewrite length_app. cbn [length].
    replace (length l + 1 - 1)%nat with (length l) by lia.
    now rewrite take_app_length.
  - intros H. assert (E : (4 <=? length l)%nat = true) by now apply Nat.leb_le.
    now rewrite E.
  - reflexivity.
  - intros i Hi. split; [apply length_insert |].
    split; [now apply list_lookup_insert_eq |].
    intros j Hj. now apply list_lookup_insert_ne.
Qed.
